(** * Usage Pattern Analyzer: a shallow embedding and its properties

    The development embeds [usage_pattern_analyzer.py] (class
    [UsagePatternAnalyzer]) together with the one table of [ai_config.py]
    it reads, [SUGGESTION_THRESHOLDS].

    How the Python is read:

    - A [dict] keeps insertion order and the analyzers iterate over it, so
      a dictionary is an association list with in-place update and
      insertion at the end ([Dict.set]).  A [defaultdict] is the same list
      read with a default.  No key occurs twice in a Python dict; that is
      [Dict.wf], which ingestion preserves.
    - A [set] only ever has its [len] taken: it is a [gset].
    - A naive [datetime] is the integer number of microseconds since
      1970-01-01T00:00:00 (a Thursday).  [datetime.now()] is an explicit
      argument of the two ingestion methods and of the report.  The log
      stores [isoformat()] strings and the analyzers parse them back with
      [fromisoformat]; that round trip is the identity on naive datetimes
      and the model stores the datetime itself.
    - A float is the exact rational it approximates ([Q]); the statements
      about rates and frequencies are statements about these rationals.
    - An exception is a [result]; a method is a state-passing function
      [UsagePatternAnalyzer -> result A * UsagePatternAnalyzer], so that a
      mutation done before a [raise] would stay visible. *)

From Stdlib Require Import ZArith QArith Qminmax Lia Lqa.
From stdpp Require Import base list strings gmap pretty sorting.

Set Default Proof Using "Type".
Local Open Scope string_scope.
Local Open Scope list_scope.

(** ** Insertion-ordered dictionaries *)

Module Dict.
Section Dict.
Context {K V : Type} `{EqDecision K}.

(** [d.get(k)] / [k in d]. *)
Fixpoint get (k : K) (d : list (K * V)) : option V :=
  match d with
  | [] => None
  | (k', v) :: r => if decide (k = k') then Some v else get k r
  end.

(** [d[k] = v]: an existing key keeps its position, a new one goes last. *)
Fixpoint set (k : K) (v : V) (d : list (K * V)) : list (K * V) :=
  match d with
  | [] => [(k, v)]
  | (k', v') :: r =>
      if decide (k = k') then (k, v) :: r else (k', v') :: set k v r
  end.

Definition keys (d : list (K * V)) : list K := d.*1.

(** The well-formedness every Python dict has: no key twice. *)
Definition wf (d : list (K * V)) : Prop := NoDup (keys d).
End Dict.
End Dict.

(** ** Strings *)

(** [s.startswith(p)]. *)
Definition startswith (p s : string) : bool := String.prefix p s.

(** [s.replace(old, new)] for a non-empty [old]: every non-overlapping
    occurrence, scanning from the left.  [skip] counts the characters of a
    match that are still to be dropped. *)
Fixpoint replace_from (old new : string) (skip : nat) (s : string) : string :=
  match s with
  | EmptyString => EmptyString
  | String c r =>
      match skip with
      | S k => replace_from old new k r
      | O =>
          if String.prefix old s
          then new +:+ replace_from old new (String.length old - 1) r
          else String c (replace_from old new 0 r)
      end
  end.

Definition str_replace (old new s : string) : string := replace_from old new 0 s.

(** [sep.join(l)]. *)
Definition join (sep : string) (l : list string) : string := String.concat sep l.

(** [c * n] for a one-character string. *)
Fixpoint str_repeat (c : string) (n : nat) : string :=
  match n with
  | O => ""
  | S k => c +:+ str_repeat c k
  end.

(** ** Data model *)

Definition datetime := Z.
Bind Scope Z_scope with datetime.
Definition metadata := list (string * string).

(** The dict built in [track_event]. *)
Record Event := mkEvent {
  ev_type : string;
  ev_user_id : string;
  ev_timestamp : datetime;
  ev_metadata : metadata
}.

(** The dict built in [track_error]. *)
Record ErrorOccurrence := mkError {
  err_user_id : string;
  err_timestamp : datetime;
  err_context : metadata
}.

(** The four attributes set by [__init__]. *)
Record UsagePatternAnalyzer := mkAnalyzer {
  events : list Event;
  user_sessions : list (string * list Event);
  feature_usage : list (string * nat);
  error_patterns : list (string * list ErrorOccurrence)
}.

Definition init : UsagePatternAnalyzer :=
  {| events := []; user_sessions := []; feature_usage := []; error_patterns := [] |}.

(** ** Exceptions and the method monad *)

Inductive exn :=
| KeyError (key : string).

Inductive result (A : Type) :=
| Ok (a : A)
| Raise (e : exn).
Arguments Ok {A} a.
Arguments Raise {A} e.

Definition M (A : Type) : Type :=
  UsagePatternAnalyzer → result A * UsagePatternAnalyzer.

#[export] Instance M_ret : MRet M := λ A a self, (Ok a, self).
#[export] Instance M_bind : MBind M := λ A B f m self,
  match m self with
  | (Ok a, self') => f a self'
  | (Raise e, self') => (Raise e, self')
  end.

Definition attr {A} (f : UsagePatternAnalyzer → A) : M A := λ self, (Ok (f self), self).
Definition update (f : UsagePatternAnalyzer → UsagePatternAnalyzer) : M () :=
  λ self, (Ok (), f self).
Definition lift {A} (r : result A) : M A := λ self, (r, self).

(** Field writers. *)
Definition with_events (f : list Event → list Event) (a : UsagePatternAnalyzer) :=
  {| events := f (events a); user_sessions := user_sessions a;
     feature_usage := feature_usage a; error_patterns := error_patterns a |}.
Definition with_user_sessions f (a : UsagePatternAnalyzer) :=
  {| events := events a; user_sessions := f (user_sessions a);
     feature_usage := feature_usage a; error_patterns := error_patterns a |}.
Definition with_feature_usage f (a : UsagePatternAnalyzer) :=
  {| events := events a; user_sessions := user_sessions a;
     feature_usage := f (feature_usage a); error_patterns := error_patterns a |}.
Definition with_error_patterns f (a : UsagePatternAnalyzer) :=
  {| events := events a; user_sessions := user_sessions a;
     feature_usage := feature_usage a; error_patterns := f (error_patterns a) |}.

(** [d[k].append(x)] on a [defaultdict(list)]. *)
Definition dd_append {A} (k : string) (x : A) (d : list (string * list A)) :=
  Dict.set k (default [] (Dict.get k d) ++ [x])%list d.

(** [d[k] += 1] on a [defaultdict(int)]. *)
Definition dd_incr {K} `{EqDecision K} (k : K) (d : list (K * nat)) :=
  Dict.set k (default 0%nat (Dict.get k d) + 1)%nat d.

(** ** Ingestion *)

Definition track_event (event_type user_id : string) (md : option metadata)
    (now : datetime) : M () :=
  let event := {| ev_type := event_type; ev_user_id := user_id;
                  ev_timestamp := now; ev_metadata := default [] md |} in
  update (with_events (λ l, (l ++ [event])%list)) ;;
  update (with_user_sessions (dd_append user_id event)) ;;
  if startswith "feature_" event_type then
    let feature_name := str_replace "feature_" "" event_type in
    update (with_feature_usage (dd_incr feature_name))
  else mret ().

Definition track_error (error_type user_id : string) (context : option metadata)
    (now : datetime) : M () :=
  let error := {| err_user_id := user_id; err_timestamp := now;
                  err_context := default [] context |} in
  update (with_error_patterns (dd_append error_type error)).


(** ** Numbers *)

Definition Q_of_nat (n : nat) : Q := inject_Z (Z.of_nat n).

(** [a < b] and [a > b] on floats. *)
Definition Qlt_bool (a b : Q) : bool := negb (Qle_bool b a).
Definition Qgt_bool (a b : Q) : bool := Qlt_bool b a.

(** [max(a, b)]: Python keeps the first argument unless the second is
    strictly greater. *)
Definition py_max (a b : Q) : Q := if Qlt_bool a b then b else a.

(** ** ai_config.SUGGESTION_THRESHOLDS *)

Definition SUGGESTION_THRESHOLDS : list (string * Q) :=
  [ ("feature_usage_high", 100%Q);
    ("feature_usage_low", 10%Q);
    ("error_rate_critical", (5 # 100)%Q);
    ("error_rate_warning", (2 # 100)%Q);
    ("response_time_critical", 2000%Q);
    ("response_time_warning", 1000%Q);
    ("adoption_rate_low", (3 # 10)%Q);
    ("adoption_rate_high", (7 # 10)%Q) ].

(** [d[k]] on a plain dict: a missing key raises [KeyError]. *)
Definition subscript {V} (d : list (string * V)) (k : string) : result V :=
  match Dict.get k d with
  | Some v => Ok v
  | None => Raise (KeyError k)
  end.

(** ** Feature adoption *)

Record FeatureStats := mkFeatureStats {
  total_uses : nat;
  unique_users : nat;
  adoption_rate : Q;
  status : string
}.

Inductive AdoptionReport :=
| AdoptionError (error : string)
| Adoption (total_features : nat)
           (features : list (string * FeatureStats))
           (adoption_insights : list string).

Definition _get_adoption_status (rate : Q) : string :=
  if Qle_bool (7 # 10) rate then "high_adoption"
  else if Qle_bool (3 # 10) rate then "moderate_adoption"
  else "low_adoption".

Definition _generate_adoption_insights
    (adoption_rates : list (string * FeatureStats)) : list string :=
  let insights := [] in
  let low_adoption_features :=
    (filter (λ fd, Qlt_bool (adoption_rate fd.2) (3 # 10) = true) adoption_rates).*1 in
  let insights :=
    match low_adoption_features with
    | [] => insights
    | _ => (insights ++
            ["Low adoption detected for: " +:+ join ", " low_adoption_features +:+ ". "
             +:+ "Consider improving discoverability or user education."])%list
    end in
  let high_value_features :=
    (filter (λ fd, Qgt_bool (adoption_rate fd.2) (7 # 10) && (100 <? total_uses fd.2)%nat = true)
            adoption_rates).*1 in
  let insights :=
    match high_value_features with
    | [] => insights
    | _ => (insights ++
            ["High-value features: " +:+ join ", " high_value_features +:+ ". "
             +:+ "Consider expanding these capabilities."])%list
    end in
  insights.

(** The two inner loops of [analyze_feature_adoption]: the set of users
    with an event whose type is exactly [f"feature_{feature}"]. *)
Definition users_using_feature (feature : string)
    (sessions : list (string * list Event)) : gset string :=
  foldl (λ acc us,
           foldl (λ acc event,
                    if decide (ev_type event = "feature_" +:+ feature)
                    then {[ us.1 ]} ∪ acc else acc)
                 acc us.2)
        ∅ sessions.

Definition feature_stats (sessions : list (string * list Event))
    (feature : string) (count : nat) : FeatureStats :=
  let users := users_using_feature feature sessions in
  let total_users := length sessions in
  let rate := (Q_of_nat (size users) / Q_of_nat total_users)%Q in
  {| total_uses := count; unique_users := size users;
     adoption_rate := rate; status := _get_adoption_status rate |}.

Definition analyze_feature_adoption : M AdoptionReport :=
  sessions ← attr user_sessions;
  let total_users := length sessions in
  if decide (total_users = 0%nat) then mret (AdoptionError "No usage data available")
  else
    usage ← attr feature_usage;
    let adoption_rates :=
      foldl (λ acc fc, Dict.set fc.1 (feature_stats sessions fc.1 fc.2) acc) [] usage in
    mret (Adoption (length adoption_rates) adoption_rates
                   (_generate_adoption_insights adoption_rates)).

(** ** User journeys *)

Record JourneyReport := mkJourneyReport {
  total_patterns : nat;
  most_common_patterns : list (string * nat);
  journey_insights : list string
}.

(** The body of the loop over one user's events.  The indices produced by
    [range(len(events) - 1)] are always in range; the last branch is
    never taken. *)
Definition count_transitions (journey_patterns : list (string * nat))
    (evs : list Event) : list (string * nat) :=
  if (length evs <? 2)%nat then journey_patterns
  else
    foldl (λ jp i,
             match evs !! i, evs !! (i + 1)%nat with
             | Some a, Some b => dd_incr (ev_type a +:+ " -> " +:+ ev_type b) jp
             | _, _ => jp
             end)
          journey_patterns (seq 0 (length evs - 1)).

(** [sorted(items, key=lambda x: x[1], reverse=True)]: a stable sort by
    descending count, equal counts keeping their dictionary order. *)
Fixpoint insert_desc {K} (x : K * nat) (l : list (K * nat)) : list (K * nat) :=
  match l with
  | [] => [x]
  | y :: r => if (y.2 <=? x.2)%nat then x :: y :: r else y :: insert_desc x r
  end.

Definition sorted_desc {K} (l : list (K * nat)) : list (K * nat) :=
  foldr insert_desc [] l.

Definition _generate_journey_insights (patterns : list (string * nat))
    : result (list string) :=
  foldl (λ acc pc,
           match acc with
           | Raise e => Raise e
           | Ok insights =>
               match subscript SUGGESTION_THRESHOLDS "pattern_frequency_threshold" with
               | Raise e => Raise e
               | Ok threshold =>
                   if Qgt_bool (Q_of_nat pc.2) threshold
                   then Ok (insights ++
                            ["Common pattern '" +:+ pc.1 +:+ "' occurs " +:+ pretty pc.2
                             +:+ " times. " +:+ "Consider optimizing this workflow."])%list
                   else Ok insights
               end
           end)
        (Ok []) patterns.

Definition analyze_user_journeys : M JourneyReport :=
  sessions ← attr user_sessions;
  let journey_patterns := foldl (λ jp us, count_transitions jp us.2) [] sessions in
  let sorted_patterns := sorted_desc journey_patterns in
  insights ← lift (_generate_journey_insights (take 10 sorted_patterns));
  mret {| total_patterns := length journey_patterns;
          most_common_patterns := take 10 sorted_patterns;
          journey_insights := insights |}.

(** ** Error patterns *)

Record ErrorStats := mkErrorStats {
  occurrences : nat;
  affected_users : nat;
  frequency_per_day : Q;
  severity : string
}.

Record ErrorReport := mkErrorReport {
  total_error_types : nat;
  errors : list (string * ErrorStats);
  error_insights : list string
}.

Definition _assess_error_severity (occurrences affected_users : nat) : string :=
  if (50 <? occurrences)%nat || (10 <? affected_users)%nat then "critical"
  else if (20 <? occurrences)%nat || (5 <? affected_users)%nat then "high"
  else if (5 <? occurrences)%nat then "medium"
  else "low".

Definition _generate_error_insights (error_analysis : list (string * ErrorStats))
    : list string :=
  let critical_errors :=
    (filter (λ ed, severity ed.2 = "critical" ∨ severity ed.2 = "high") error_analysis).*1 in
  match critical_errors with
  | [] => []
  | _ => ["Critical/High severity errors detected: " +:+ join ", " critical_errors +:+ ". "
          +:+ "Immediate attention required."]
  end.

(** [max(l)] and [min(l)] of a non-empty list of datetimes. *)
Definition max_datetime (t : datetime) (ts : list datetime) : datetime := foldl Z.max t ts.
Definition min_datetime (t : datetime) (ts : list datetime) : datetime := foldl Z.min t ts.

(** [timedelta.total_seconds()], the timedelta being in microseconds. *)
Definition total_seconds (time_span : Z) : Q := (inject_Z time_span / 1000000)%Q.

Definition frequency (occs : list ErrorOccurrence) : Q :=
  match err_timestamp <$> occs with
  | [] => 0%Q
  | t :: ts =>
      let time_span := (max_datetime t ts - min_datetime t ts)%Z in
      let days := (total_seconds time_span / 86400)%Q in
      (Q_of_nat (length occs) / py_max days 1)%Q
  end.

Definition error_stats (occs : list ErrorOccurrence) : ErrorStats :=
  let users : gset string := list_to_set (err_user_id <$> occs) in
  {| occurrences := length occs;
     affected_users := size users;
     frequency_per_day := frequency occs;
     severity := _assess_error_severity (length occs) (size users) |}.

Definition analyze_error_patterns : M ErrorReport :=
  patterns ← attr error_patterns;
  let error_analysis :=
    foldl (λ acc eo, Dict.set eo.1 (error_stats eo.2) acc) [] patterns in
  mret {| total_error_types := length error_analysis;
          errors := error_analysis;
          error_insights := _generate_error_insights error_analysis |}.

(** ** Time patterns *)

Record TimeReport := mkTimeReport {
  hourly_distribution : list (Z * nat);
  daily_distribution : list (string * nat);
  peak_hour : Z;
  peak_day : string;
  time_insights : list string
}.

Definition microseconds_per_hour : Z := 3600000000.
Definition microseconds_per_day : Z := 86400000000.

(** [timestamp.hour]. *)
Definition hour (t : datetime) : Z := ((t `div` microseconds_per_hour) `mod` 24)%Z.

(** The calendar day of a datetime, as a day number. *)
Definition calendar_day (t : datetime) : Z := (t `div` microseconds_per_day)%Z.

(** [timestamp.strftime("%A")]; day 0 is a Thursday. *)
Definition weekday_name (t : datetime) : string :=
  match ((calendar_day t + 3) `mod` 7)%Z with
  | 0%Z => "Monday"
  | 1%Z => "Tuesday"
  | 2%Z => "Wednesday"
  | 3%Z => "Thursday"
  | 4%Z => "Friday"
  | 5%Z => "Saturday"
  | _ => "Sunday"
  end.

(** The two bucket keys of an event. *)
Definition event_hour (e : Event) : Z := hour (ev_timestamp e).
Definition event_weekday (e : Event) : string := weekday_name (ev_timestamp e).

(** The aggregation loop, for one of the two bucket keys. *)
Definition bucket_counts {K} `{EqDecision K} (key : Event → K) (evs : list Event)
    : list (K * nat) :=
  foldl (λ acc event, dd_incr (key event) acc) [] evs.

(** [max(items, key=lambda x: x[1])]: the first item with the largest
    count; [None] stands for the empty dictionary. *)
Definition max_by_count {K} (items : list (K * nat)) : option (K * nat) :=
  match items with
  | [] => None
  | x :: r => Some (foldl (λ best y, if (best.2 <? y.2)%nat then y else best) x r)
  end.

Definition analyze_time_patterns : M TimeReport :=
  evs ← attr events;
  let hourly_activity := bucket_counts event_hour evs in
  let daily_activity := bucket_counts event_weekday evs in
  let peak_hour := default (0%Z, 0%nat) (max_by_count hourly_activity) in
  let peak_day := default ("", 0%nat) (max_by_count daily_activity) in
  mret {| hourly_distribution := hourly_activity;
          daily_distribution := daily_activity;
          peak_hour := peak_hour.1;
          peak_day := peak_day.1;
          time_insights :=
            [ "Peak usage hour: " +:+ pretty peak_hour.1 +:+ ":00 with "
                +:+ pretty peak_hour.2 +:+ " events";
              "Peak usage day: " +:+ peak_day.1 +:+ " with "
                +:+ pretty peak_day.2 +:+ " events";
              "Consider scheduling maintenance during low-activity periods" ] |}.

(** ** The report *)

Definition nl : string := String (Ascii.ascii_of_nat 10) "".
Definition bullet : string :=
  String (Ascii.ascii_of_nat 226) (String (Ascii.ascii_of_nat 128)
    (String (Ascii.ascii_of_nat 162) "")).

Section Report.
(** The two formatters of the report that depend on the C library:
    [strftime('%Y-%m-%d %H:%M:%S')] and the float format [:.1%]. *)
Variable strftime_seconds : datetime → string.
Variable format_percent : Q → string.

Definition banner : string := str_repeat "=" 80.

Definition feature_lines (report : list string) (fd : string * FeatureStats)
    : list string :=
  (report ++
   [ nl +:+ fd.1 +:+ ":";
     "  Total Uses: " +:+ pretty (total_uses fd.2);
     "  Unique Users: " +:+ pretty (unique_users fd.2);
     "  Adoption Rate: " +:+ format_percent (adoption_rate fd.2);
     "  Status: " +:+ status fd.2 ])%list.

Definition error_lines (report : list string) (ed : string * ErrorStats)
    : list string :=
  (report ++
   [ nl +:+ ed.1 +:+ ":";
     "  Occurrences: " +:+ pretty (occurrences ed.2);
     "  Affected Users: " +:+ pretty (affected_users ed.2);
     "  Severity: " +:+ severity ed.2 ])%list.

Definition insight_line (report : list string) (insight : string) : list string :=
  (report ++ ["  " +:+ bullet +:+ " " +:+ insight])%list.

Definition generate_comprehensive_report (now : datetime) : M string :=
  let report := [banner; "USAGE PATTERN ANALYSIS REPORT"; banner] in
  let report := (report ++ [nl +:+ "Generated: " +:+ strftime_seconds now])%list in
  evs ← attr events;
  let report := (report ++ ["Total Events Tracked: " +:+ pretty (length evs)])%list in
  sessions ← attr user_sessions;
  let report := (report ++ ["Unique Users: " +:+ pretty (length sessions) +:+ nl])%list in
  let report := (report ++ [nl +:+ banner; "FEATURE ADOPTION ANALYSIS"; banner])%list in
  adoption ← analyze_feature_adoption;
  let report :=
    match adoption with
    | Adoption _ features _ => foldl feature_lines report features
    | AdoptionError _ => report
    end in
  let report :=
    match adoption with
    | Adoption _ _ insights =>
        foldl insight_line (report ++ [nl +:+ "Key Insights:"])%list insights
    | AdoptionError _ => report
    end in
  let report := (report ++ [nl +:+ banner; "USER JOURNEY PATTERNS"; banner])%list in
  journeys ← analyze_user_journeys;
  let report :=
    (report ++ [nl +:+ "Total Unique Patterns: " +:+ pretty (total_patterns journeys);
                nl +:+ "Most Common Patterns:"])%list in
  let report :=
    foldl (λ rep pc, rep ++ ["  " +:+ pretty pc.2 +:+ "x: " +:+ pc.1])%list
          report (take 5 (most_common_patterns journeys)) in
  let report := (report ++ [nl +:+ banner; "ERROR PATTERN ANALYSIS"; banner])%list in
  errs ← analyze_error_patterns;
  let report :=
    (report ++ [nl +:+ "Total Error Types: " +:+ pretty (total_error_types errs)])%list in
  let report := foldl error_lines report (errors errs) in
  let report := (report ++ [nl +:+ banner; "TIME PATTERN ANALYSIS"; banner])%list in
  time_patterns ← analyze_time_patterns;
  let report := foldl insight_line report (time_insights time_patterns) in
  let report := (report ++ [nl +:+ banner])%list in
  mret (join nl report).
End Report.

(** ** Logs: the states an engine can be in *)

Inductive Call :=
| TrackEvent (event_type user_id : string) (md : option metadata) (now : datetime)
| TrackError (error_type user_id : string) (context : option metadata) (now : datetime).

Definition call (c : Call) : M () :=
  match c with
  | TrackEvent t u md now => track_event t u md now
  | TrackError t u cx now => track_error t u cx now
  end.

(** The engine after [__init__] and the given calls, in order. *)
Definition replay (cs : list Call) : UsagePatternAnalyzer :=
  foldl (λ self c, (call c self).2) init cs.

(** * The recommendation engine ([recommendation_engine.py])

    The engine reads [SUGGESTION_THRESHOLDS] too.  Its relevance scores are
    sums of float literals, and sorting compares them, so here floats stay
    abstract: a type [F] with the addition, the comparison [<] and the
    reading of a decimal literal.  [str.title] is a parameter as well. *)

(** [list.sort(key=..., reverse=True)] and [sorted(..., reverse=True)]: a
    stable sort into descending order that only uses [<] on the keys. *)
Fixpoint insert_reverse {A} (lt : A → A → bool) (x : A) (l : list A) : list A :=
  match l with
  | [] => [x]
  | y :: r => if lt x y then y :: insert_reverse lt x r else x :: y :: r
  end.

Definition sort_reverse {A} (lt : A → A → bool) (l : list A) : list A :=
  foldr (insert_reverse lt) [] l.

Module Recommend.
Section Recommend.
Variable F : Type.
Variable fadd : F → F → F.
Variable flt : F → F → bool.
Variable lit : Q → F.
Variable str_title : string → string.
Variable format_2f : F → string.

Record UserProfile := mkUserProfile {
  user_id : string;
  experience_level : string;
  primary_use_cases : list string;
  feature_adoption : list (string * nat);
  last_active : datetime
}.

Record Recommendation := mkRecommendation {
  title : string;
  description : string;
  recommendation_type : string;
  relevance_score : F;
  estimated_time_savings : nat;
  difficulty : string;
  learning_resources : list string
}.

(** One entry of the feature catalog: a dict with these four keys. *)
Record FeatureInfo := mkFeatureInfo {
  info_difficulty : string;
  info_time_savings : nat;
  info_category : string;
  info_description : string
}.

Record RecommendationEngine := mkEngine {
  user_profiles : list (string * UserProfile);
  feature_catalog : list (string * FeatureInfo)
}.

Definition _initialize_feature_catalog : list (string * FeatureInfo) :=
  [ ("workflow_automation",
     mkFeatureInfo "beginner" 120 "automation"
       "Automate repetitive tasks with custom workflows");
    ("smart_scheduling",
     mkFeatureInfo "intermediate" 60 "productivity"
       "AI-powered scheduling optimization");
    ("voice_commands",
     mkFeatureInfo "beginner" 30 "accessibility"
       "Control workflows using voice commands");
    ("batch_processing",
     mkFeatureInfo "advanced" 180 "automation"
       "Process multiple tasks simultaneously");
    ("predictive_suggestions",
     mkFeatureInfo "intermediate" 45 "ai"
       "Get AI-powered action predictions");
    ("integration_hub",
     mkFeatureInfo "intermediate" 90 "integration"
       "Connect with external services and apps");
    ("analytics_dashboard",
     mkFeatureInfo "beginner" 15 "insights"
       "Track and analyze your productivity") ].

(** [__init__]. *)
Definition new_engine : RecommendationEngine :=
  {| user_profiles := []; feature_catalog := _initialize_feature_catalog |}.

Definition create_user_profile (uid level : string) (use_cases : list string)
    (now : datetime) (self : RecommendationEngine)
    : UserProfile * RecommendationEngine :=
  let profile := {| user_id := uid; experience_level := level;
                    primary_use_cases := use_cases; feature_adoption := [];
                    last_active := now |} in
  (profile,
   {| user_profiles := Dict.set uid profile (user_profiles self);
      feature_catalog := feature_catalog self |}).

Definition update_feature_usage (uid feature : string) (now : datetime)
    (self : RecommendationEngine) : RecommendationEngine :=
  match Dict.get uid (user_profiles self) with
  | Some profile =>
      let profile' :=
        {| user_id := user_id profile;
           experience_level := experience_level profile;
           primary_use_cases := primary_use_cases profile;
           feature_adoption :=
             Dict.set feature
               (default 0%nat (Dict.get feature (feature_adoption profile)) + 1)%nat
               (feature_adoption profile);
           last_active := now |} in
      {| user_profiles := Dict.set uid profile' (user_profiles self);
         feature_catalog := feature_catalog self |}
  | None => self
  end.

Definition difficulty_level (name : string) : nat :=
  default 1%nat
    (Dict.get name [("beginner", 1%nat); ("intermediate", 2%nat); ("advanced", 3%nat)]).

Definition _is_feature_appropriate (profile : UserProfile) (feature_info : FeatureInfo)
    : bool :=
  let user_level := difficulty_level (experience_level profile) in
  let feature_level := difficulty_level (info_difficulty feature_info) in
  (feature_level <=? user_level + 1)%nat.

(** [min(score, 1.0)]: the first argument unless the second is smaller. *)
Definition fmin (a b : F) : F := if flt b a then b else a.

Definition _calculate_relevance (feature_name : string) (feature_info : FeatureInfo)
    (profile : UserProfile) : F :=
  let score := lit (5 # 10) in
  let score :=
    foldl (λ score use_case,
             if decide (use_case = info_category feature_info)
             then fadd score (lit (2 # 10)) else score)
          score (primary_use_cases profile) in
  let score :=
    if decide (info_difficulty feature_info = experience_level profile)
    then fadd score (lit (2 # 10)) else score in
  let score :=
    if (90 <? info_time_savings feature_info)%nat
    then fadd score (lit (1 # 10)) else score in
  fmin score (lit 1).

Definition _create_recommendation (feature_name : string) (feature_info : FeatureInfo)
    (profile : UserProfile) : Recommendation :=
  let relevance := _calculate_relevance feature_name feature_info profile in
  {| title := "Try " +:+ str_title (str_replace "_" " " feature_name);
     description := info_description feature_info;
     recommendation_type := "feature";
     relevance_score := relevance;
     estimated_time_savings := info_time_savings feature_info;
     difficulty := info_difficulty feature_info;
     learning_resources := [] |}.

Definition _generate_advanced_recommendations (profile : UserProfile)
    : list Recommendation :=
  let advanced_recs := [] in
  let advanced_recs :=
    if (5 <? length (feature_adoption profile))%nat
    then advanced_recs ++
         [ {| title := "Create Complex Multi-Step Workflows";
              description := "Combine multiple automations into sophisticated workflows";
              recommendation_type := "workflow";
              relevance_score := lit (85 # 100);
              estimated_time_savings := 150;
              difficulty := "advanced";
              learning_resources := ["docs/advanced_workflows.md"] |} ]
    else advanced_recs in
  let advanced_recs :=
    if decide ("integration" ∈ primary_use_cases profile)
    then advanced_recs ++
         [ {| title := "Leverage API Integrations";
              description := "Connect custom services via REST API";
              recommendation_type := "feature";
              relevance_score := lit (80 # 100);
              estimated_time_savings := 120;
              difficulty := "advanced";
              learning_resources := ["docs/api_reference.md"] |} ]
    else advanced_recs in
  advanced_recs.

Definition _generate_optimization_recommendations (profile : UserProfile)
    : result (list Recommendation) :=
  foldl (λ acc fc,
           match acc with
           | Raise e => Raise e
           | Ok optimization_recs =>
               match subscript SUGGESTION_THRESHOLDS "frequent_usage_threshold" with
               | Raise e => Raise e
               | Ok threshold =>
                   if Qgt_bool (Q_of_nat fc.2) threshold
                   then Ok (optimization_recs ++
                            [ {| title := "Optimize Your "
                                          +:+ str_title (str_replace "_" " " fc.1)
                                          +:+ " Usage";
                                 description := "Learn advanced techniques to maximize "
                                                +:+ fc.1 +:+ " efficiency";
                                 recommendation_type := "optimization";
                                 relevance_score := lit (75 # 100);
                                 estimated_time_savings := 30;
                                 difficulty := "intermediate";
                                 learning_resources :=
                                   ["docs/" +:+ fc.1 +:+ "_optimization.md"] |} ])
                   else Ok optimization_recs
               end
           end)
        (Ok []) (feature_adoption profile).

Definition _generate_default_recommendations : list Recommendation :=
  [ {| title := "Get Started with Workflow Automation";
       description := "Learn the basics of automating your daily tasks";
       recommendation_type := "learning";
       relevance_score := lit (95 # 100);
       estimated_time_savings := 120;
       difficulty := "beginner";
       learning_resources := ["docs/getting_started.md"; "tutorials/first_workflow.md"] |};
    {| title := "Explore Voice Commands";
       description := "Control NeuralGate hands-free with voice";
       recommendation_type := "feature";
       relevance_score := lit (85 # 100);
       estimated_time_savings := 30;
       difficulty := "beginner";
       learning_resources := ["docs/voice_commands.md"] |};
    {| title := "Set Up Your First Automation";
       description := "Create a simple automation to save time immediately";
       recommendation_type := "workflow";
       relevance_score := lit (90 # 100);
       estimated_time_savings := 60;
       difficulty := "beginner";
       learning_resources := ["tutorials/quick_start.md"] |} ].

(** The loop over the catalog in [generate_recommendations]. *)
Definition unused_feature_recommendations (profile : UserProfile)
    (catalog : list (string * FeatureInfo)) : list Recommendation :=
  foldl (λ recommendations fi,
           match Dict.get fi.1 (feature_adoption profile) with
           | Some _ => recommendations
           | None =>
               if _is_feature_appropriate profile fi.2
               then recommendations ++ [_create_recommendation fi.1 fi.2 profile]
               else recommendations
           end)
        [] catalog.

Definition generate_recommendations (uid : string) (self : RecommendationEngine)
    : result (list Recommendation) :=
  match Dict.get uid (user_profiles self) with
  | None => Ok _generate_default_recommendations
  | Some profile =>
      let recommendations :=
        unused_feature_recommendations profile (feature_catalog self) in
      let recommendations :=
        if decide (experience_level profile = "advanced")
        then recommendations ++ _generate_advanced_recommendations profile
        else recommendations in
      match _generate_optimization_recommendations profile with
      | Raise e => Raise e
      | Ok optimization_recs =>
          let recommendations := recommendations ++ optimization_recs in
          let recommendations :=
            sort_reverse (λ a b, flt (relevance_score a) (relevance_score b))
                         recommendations in
          Ok (take 10 recommendations)
      end
  end.

Definition recommendation_lines (report : list string) (ir : nat * Recommendation)
    : list string :=
  report ++
  [ pretty ir.1 +:+ ". " +:+ title ir.2;
    "   Type: " +:+ recommendation_type ir.2 +:+ " | "
      +:+ "Difficulty: " +:+ difficulty ir.2 +:+ " | "
      +:+ "Relevance: " +:+ format_2f (relevance_score ir.2);
    "   Time Savings: ~" +:+ pretty (estimated_time_savings ir.2) +:+ " minutes/week";
    "   " +:+ description ir.2;
    "   Resources: " +:+ join ", " (learning_resources ir.2);
    "" ].

Definition generate_recommendation_report (uid : string) (self : RecommendationEngine)
    : result string :=
  match generate_recommendations uid self with
  | Raise e => Raise e
  | Ok recommendations =>
      let report := [str_repeat "=" 80; "PERSONALIZED RECOMMENDATIONS"; str_repeat "=" 80] in
      let report :=
        match Dict.get uid (user_profiles self) with
        | Some profile =>
            report ++
            [ nl +:+ "User: " +:+ uid;
              "Experience Level: " +:+ experience_level profile;
              "Features Used: " +:+ pretty (length (feature_adoption profile)) ]
        | None => report
        end in
      let report := report ++ [nl +:+ "Top Recommendations:" +:+ nl] in
      let report :=
        foldl recommendation_lines report
              (zip (seq 1 (length recommendations)) recommendations) in
      let report := report ++ [str_repeat "=" 80] in
      Ok (join nl report)
  end.
End Recommend.
End Recommend.

(** * The suggestion engine ([ai_suggestion_engine.py])

    Every [Suggestion] reads [datetime.now()] when it is built.  The clock is
    a parameter, [clock n] being its n-th reading, and the state of a run is
    the engine together with the number of readings made so far.
    [usage_data] is the dictionary the type hints describe: a list of
    operations and a list of feedback items, each a dictionary of strings,
    and the performance metrics. *)

Module Suggest.
Section Suggest.
Variable clock : nat → datetime.
Variable format_number : Q → string.
Variable str_title : string → string.

Inductive SuggestionCategory :=
| FEATURE_ENHANCEMENT
| PERFORMANCE_OPTIMIZATION
| USER_EXPERIENCE
| AUTOMATION_OPPORTUNITY
| INTEGRATION
| SECURITY.

Inductive SuggestionPriority :=
| CRITICAL
| HIGH
| MEDIUM
| LOW.

Record Suggestion := mkSuggestion {
  title : string;
  description : string;
  category : SuggestionCategory;
  priority : SuggestionPriority;
  impact_score : Q;
  implementation_complexity : string;
  rationale : string;
  timestamp : datetime
}.

Record Metrics := mkMetrics {
  response_times : option (list (string * Q))
}.

Record UsageData := mkUsageData {
  operations : option (list (list (string * string)));
  feedback : option (list (list (string * string)));
  performance : option Metrics
}.

Record AISuggestionEngine := mkEngine {
  suggestions : list Suggestion;
  usage_patterns : UsageData
}.

(** [__init__]; the empty dict has none of the three keys. *)
Definition new_engine : AISuggestionEngine :=
  {| suggestions := []; usage_patterns := mkUsageData None None None |}.

Record World := mkWorld {
  engine : AISuggestionEngine;
  readings : nat
}.

Definition ST (A : Type) : Type := World → result A * World.

#[global] Instance ST_ret : MRet ST := λ A a w, (Ok a, w).
#[global] Instance ST_bind : MBind ST := λ A B f m w,
  match m w with
  | (Ok a, w') => f a w'
  | (Raise e, w') => (Raise e, w')
  end.

Definition lift {A} (r : result A) : ST A := λ w, (r, w).

(** [Suggestion(...)]: the constructor reads the clock. *)
Definition new_suggestion (title description : string) (category : SuggestionCategory)
    (priority : SuggestionPriority) (impact_score : Q)
    (implementation_complexity rationale : string) : ST Suggestion :=
  λ w, (Ok {| title := title; description := description; category := category;
              priority := priority; impact_score := impact_score;
              implementation_complexity := implementation_complexity;
              rationale := rationale; timestamp := clock (readings w) |},
        {| engine := engine w; readings := S (readings w) |}).

(** [self.suggestions.append(s)] and [self.suggestions.extend(l)]. *)
Definition extend_suggestions (l : list Suggestion) : ST () :=
  λ w, (Ok (),
        {| engine := {| suggestions := suggestions (engine w) ++ l;
                        usage_patterns := usage_patterns (engine w) |};
           readings := readings w |}).

Definition set_usage_patterns (usage_data : UsageData) : ST () :=
  λ w, (Ok (),
        {| engine := {| suggestions := suggestions (engine w);
                        usage_patterns := usage_data |};
           readings := readings w |}).

(** A [for] loop whose body may raise. *)
Fixpoint for_each {A} (l : list A) (body : A → ST ()) : ST () :=
  match l with
  | [] => mret ()
  | x :: r => body x ;; for_each r body
  end.

(** The counting loop shared by the two analyses: [item.get(key, dflt)]
    is the bucket of an item. *)
Definition count_by (key dflt : string) (items : list (list (string * string)))
    : list (string * nat) :=
  foldl (λ counts item, dd_incr (default dflt (Dict.get key item)) counts) [] items.

Definition _analyze_operation_frequency (operations : list (list (string * string)))
    : ST () :=
  let operation_counts := count_by "type" "unknown" operations in
  for_each operation_counts (λ oc,
    threshold ← lift (subscript SUGGESTION_THRESHOLDS "feature_usage_high");
    if Qgt_bool (Q_of_nat oc.2) threshold then
      s ← new_suggestion
             ("Optimize " +:+ oc.1 +:+ " operation")
             ("The " +:+ oc.1 +:+ " operation is used frequently (" +:+ pretty oc.2
              +:+ " times). "
              +:+ "Consider caching or batch processing to improve performance.")
             PERFORMANCE_OPTIMIZATION HIGH 8 "Medium"
             ("High frequency usage (" +:+ pretty oc.2
              +:+ " operations) indicates optimization opportunity");
      extend_suggestions [s]
    else mret ()).

Definition _analyze_user_feedback (feedback : list (list (string * string))) : ST () :=
  let pain_points := count_by "category" "general" feedback in
  for_each pain_points (λ cc,
    threshold ← lift (subscript SUGGESTION_THRESHOLDS "user_feedback_threshold");
    if Qgt_bool (Q_of_nat cc.2) threshold then
      s ← new_suggestion
             ("Address " +:+ cc.1 +:+ " feedback")
             ("Multiple users reported issues with " +:+ cc.1 +:+ " (" +:+ pretty cc.2
              +:+ " reports). "
              +:+ "Implement improvements to enhance user satisfaction.")
             USER_EXPERIENCE HIGH (75 # 10) "Low to Medium"
             ("User feedback indicates " +:+ cc.1 +:+ " needs attention ("
              +:+ pretty cc.2 +:+ " reports)");
      extend_suggestions [s]
    else mret ()).

Definition _analyze_performance_metrics (metrics : Metrics) : ST () :=
  match response_times metrics with
  | Some times =>
      let avg_time := default 0%Q (Dict.get "average" times) in
      threshold ← lift (subscript SUGGESTION_THRESHOLDS "response_time_warning");
      if Qgt_bool avg_time threshold then
        s ← new_suggestion
               "Reduce response time"
               ("Average response time is " +:+ format_number avg_time +:+ "ms. "
                +:+ "Consider implementing caching, indexing, or async processing.")
               PERFORMANCE_OPTIMIZATION CRITICAL 9 "Medium to High"
               ("Response time (" +:+ format_number avg_time
                +:+ "ms) exceeds acceptable threshold");
        extend_suggestions [s]
      else mret ()
  | None => mret ()
  end.

Definition analyze_usage_patterns (usage_data : UsageData) : ST () :=
  set_usage_patterns usage_data ;;
  match operations usage_data with
  | Some ops => _analyze_operation_frequency ops
  | None => mret ()
  end ;;
  match feedback usage_data with
  | Some fb => _analyze_user_feedback fb
  | None => mret ()
  end ;;
  match performance usage_data with
  | Some metrics => _analyze_performance_metrics metrics
  | None => mret ()
  end.

Definition common_automation_needs : list string :=
  [ "email_automation"; "calendar_management"; "task_tracking";
    "file_management"; "social_media"; "smart_home"; "health_tracking" ].

(** The loop of [detect_capability_gaps], [gap_suggestions] being threaded
    through it. *)
Fixpoint collect_gaps (needs current_features : list string)
    (gap_suggestions : list Suggestion) : ST (list Suggestion) :=
  match needs with
  | [] => mret gap_suggestions
  | need :: r =>
      if decide (need ∈ current_features) then
        collect_gaps r current_features gap_suggestions
      else
        s ← new_suggestion
               ("Add " +:+ str_title (str_replace "_" " " need) +:+ " capability")
               ("Implement " +:+ str_replace "_" " " need
                +:+ " automation to address common user needs.")
               FEATURE_ENHANCEMENT MEDIUM (65 # 10) "Medium"
               (str_title (str_replace "_" " " need)
                +:+ " is a common automation requirement");
        collect_gaps r current_features (gap_suggestions ++ [s])
  end.

Definition detect_capability_gaps (current_features : list string)
    : ST (list Suggestion) :=
  gap_suggestions ← collect_gaps common_automation_needs current_features [];
  extend_suggestions gap_suggestions ;;
  mret gap_suggestions.

Definition priority_order (p : SuggestionPriority) : nat :=
  match p with
  | CRITICAL => 4
  | HIGH => 3
  | MEDIUM => 2
  | LOW => 1
  end.

(** [<] on the sort keys [(priority_order[s.priority], s.impact_score)]:
    tuples compare lexicographically. *)
Definition key_lt (a b : Suggestion) : bool :=
  (priority_order (priority a) <? priority_order (priority b))%nat
  || ((priority_order (priority a) =? priority_order (priority b))%nat
      && Qlt_bool (impact_score a) (impact_score b)).

Definition get_prioritized_suggestions (self : AISuggestionEngine) : list Suggestion :=
  sort_reverse key_lt (suggestions self).
End Suggest.
End Suggest.

(** * Specification vocabulary *)

(** ** Methods that do not write *)

Definition readonly {A} (m : M A) : Prop := ∀ self, (m self).2 = self.

(** ** Buckets of events *)

Section BucketVocabulary.
Context {K : Type} `{EqDecision K} (key : Event → K).
Implicit Types (evs : list Event) (k : K).

(** The number of events that fall into bucket [k]. *)
Definition bucket_size k evs : nat := length (filter (λ e, key e = k) evs).

(** The position in the log of the first event of bucket [k]. *)
Definition first_seen k evs : option nat := fst <$> list_find (λ e, key e = k) evs.

Definition seen_before evs (k k' : K) : Prop :=
  ∃ i j, first_seen k evs = Some i ∧ first_seen k' evs = Some j ∧ (i < j)%nat.
End BucketVocabulary.

(** ** Error occurrences *)

(** The earliest and the latest timestamp among the occurrences. *)
Definition is_earliest (t : datetime) (occs : list ErrorOccurrence) : Prop :=
  t ∈ err_timestamp <$> occs ∧ ∀ t', t' ∈ err_timestamp <$> occs → (t ≤ t')%Z.
Definition is_latest (t : datetime) (occs : list ErrorOccurrence) : Prop :=
  t ∈ err_timestamp <$> occs ∧ ∀ t', t' ∈ err_timestamp <$> occs → (t' ≤ t)%Z.

(** The time from [earliest] to [latest] in fractional days. *)
Definition span_in_days (earliest latest : datetime) : Q :=
  (inject_Z (latest - earliest) / inject_Z microseconds_per_day)%Q.

Definition same_calendar_day (occs : list ErrorOccurrence) : Prop :=
  ∀ o o', o ∈ occs → o' ∈ occs →
    calendar_day (err_timestamp o) = calendar_day (err_timestamp o').

(** ** Sessions and users *)

(** One user's session: the events of that user, in log order. *)
Definition session_of (user_id : string) (evs : list Event) : list Event :=
  filter (λ e, ev_user_id e = user_id) evs.

(** What ingestion maintains: the dictionaries have no key twice, and the
    sessions dictionary holds, for exactly the users with an event, their
    session. *)
Record consistent (self : UsagePatternAnalyzer) : Prop := mkConsistent {
  sessions_wf : Dict.wf (user_sessions self);
  usage_wf : Dict.wf (feature_usage self);
  errors_wf : Dict.wf (error_patterns self);
  sessions_events : ∀ u,
    Dict.get u (user_sessions self)
    = match session_of u (events self) with [] => None | l => Some l end
}.

(** The users with an event of type [feature_<name>]. *)
Definition users_triggering (feature : string) (evs : list Event) : gset string :=
  list_to_set (ev_user_id <$> filter (λ e, ev_type e = "feature_" +:+ feature) evs).

(** The users with an event. *)
Definition event_users (evs : list Event) : gset string :=
  list_to_set (ev_user_id <$> evs).

(** The users named by an error occurrence. *)
Definition error_users (patterns : list (string * list ErrorOccurrence)) : gset string :=
  list_to_set (err_user_id <$> concat patterns.*2).

(** The distinct user ids seen anywhere in the log. *)
Definition log_users (self : UsagePatternAnalyzer) : gset string :=
  event_users (events self) ∪ error_users (error_patterns self).

(** ** The two statements of the specification that the code contradicts *)

(** The claim of the specification, in its words: [track_event] fails
    exactly when the user id is empty. *)
Definition fails_iff_user_id_empty : Prop :=
  ∀ event_type user_id md now self,
    (∃ e, (track_event event_type user_id md now self).1 = Raise e) ↔ user_id = "".

(** The claim of the specification, in its words: the rate is taken over
    all the user ids of the log, those of error occurrences included. *)
Definition rate_over_log_users : Prop :=
  ∀ cs n feats ins feature stats,
    (analyze_feature_adoption (replay cs)).1 = Ok (Adoption n feats ins) →
    Dict.get feature feats = Some stats →
    (adoption_rate stats
     == Q_of_nat (size (users_triggering feature (events (replay cs))))
        / Q_of_nat (size (log_users (replay cs))))%Q.

(** ** Sample logs *)

Definition login_then_search : list Call :=
  [ TrackEvent "login" "u1" None 0; TrackEvent "search" "u1" None 5 ].

Definition nine_and_fourteen : list Call :=
  [ TrackEvent "open" "u1" None (14 * 3600000000);
    TrackEvent "open" "u2" None (9 * 3600000000);
    TrackEvent "save" "u1" None (9 * 3600000000 + 60000000);
    TrackEvent "save" "u2" None (14 * 3600000000 + 60000000) ].

Definition timeout_burst : list Call :=
  [ TrackError "timeout" "u1" None 0;
    TrackError "timeout" "u2" None 1000;
    TrackError "timeout" "u1" None 5000 ].

Definition one_event_one_error : list Call :=
  [ TrackEvent "feature_x" "u1" None 0; TrackError "timeout" "u2" None 5 ].

Definition nested_prefix_log : list Call :=
  [ TrackEvent "feature_feafeature_ture_" "u1" None 0;
    TrackEvent "feature_feature_" "u1" None 1;
    TrackEvent "feature_feature_" "u2" None 2 ].

(** ** Counters, calls and severities *)

(** The four severities, from [low] (0) to [critical] (3). *)
Definition severity_rank (severity : string) : nat :=
  if decide (severity = "critical") then 3
  else if decide (severity = "high") then 2
  else if decide (severity = "medium") then 1
  else 0.

(** The sum of the counts of a dictionary of counters. *)
Definition sum_counts {K} (d : list (K * nat)) : nat := sum_list d.*2.

(** The counter an event type is counted under, if any. *)
Definition feature_key (event_type : string) : option string :=
  if startswith "feature_" event_type
  then Some (str_replace "feature_" "" event_type)
  else None.

(** The number of events counted under [feature]. *)
Definition uses_of (feature : string) (evs : list Event) : nat :=
  length (filter (λ e, feature_key (ev_type e) = Some feature) evs).

(** [old in s]. *)
Fixpoint contains (old s : string) : bool :=
  String.prefix old s
  || match s with
     | EmptyString => false
     | String _ r => contains old r
     end.

(** The event a call puts into the log, and the error occurrence it puts
    under [error_type]. *)
Definition event_of_call (c : Call) : option Event :=
  match c with
  | TrackEvent t u md now => Some (mkEvent t u now (default [] md))
  | TrackError _ _ _ _ => None
  end.

Definition error_of_call (error_type : string) (c : Call) : option ErrorOccurrence :=
  match c with
  | TrackEvent _ _ _ _ => None
  | TrackError t u cx now =>
      if decide (t = error_type) then Some (mkError u now (default [] cx)) else None
  end.

Definition events_of_calls (cs : list Call) : list Event := omap event_of_call cs.

Definition errors_of_calls (error_type : string) (cs : list Call)
    : list ErrorOccurrence :=
  omap (error_of_call error_type) cs.

(** The report of [analyze_user_journeys] when there is no pattern. *)
Definition empty_journey_report : JourneyReport :=
  {| total_patterns := 0; most_common_patterns := []; journey_insights := [] |}.

(** ** The other two engines, and more sample data *)

(** The names [strftime("%A")] can give. *)
Definition weekday_names : list string :=
  ["Monday"; "Tuesday"; "Wednesday"; "Thursday"; "Friday"; "Saturday"; "Sunday"].

(** What a run may do to the engine: keep [usage_patterns], add
    suggestions at the end, read the clock. *)
Definition grows (w w' : Suggest.World) : Prop :=
  Suggest.usage_patterns (Suggest.engine w') = Suggest.usage_patterns (Suggest.engine w)
  ∧ Suggest.suggestions (Suggest.engine w)
    `prefix_of` Suggest.suggestions (Suggest.engine w')
  ∧ (Suggest.readings w ≤ Suggest.readings w')%nat.

(** [a] does not rank below [b]: a higher priority, or the same priority
    and at least the impact. *)
Definition not_below (a b : Suggest.Suggestion) : Prop :=
  (Suggest.priority_order (Suggest.priority b)
   < Suggest.priority_order (Suggest.priority a))%nat
  ∨ (Suggest.priority_order (Suggest.priority a)
     = Suggest.priority_order (Suggest.priority b)
     ∧ (Suggest.impact_score b <= Suggest.impact_score a)%Q).

Definition two_features_log : list Call :=
  [ TrackEvent "feature_automation" "user1" None 0;
    TrackEvent "feature_scheduling" "user1" None 1;
    TrackEvent "feature_automation" "user2" None 2;
    TrackEvent "login" "user3" None 3 ].

Definition many_timeouts : list Call :=
  (λ i, TrackError "timeout" "u1" None (Z.of_nat i)) <$> seq 0 21.

(** The engine with exact rational arithmetic in the place of floats. *)
Definition exact_recommendations :=
  Recommend.generate_recommendations Q Qplus Qlt_bool (λ q, q) (λ s, s).

Definition exact_report :=
  Recommend.generate_recommendation_report Q Qplus Qlt_bool (λ q, q) (λ s, s) (λ _, "").

Definition power_user_engine : Recommend.RecommendationEngine :=
  Recommend.update_feature_usage "user456" "workflow_automation" 1
    (Recommend.create_user_profile "user456" "advanced"
       ["automation"; "integration"] 0 Recommend.new_engine).2.

Definition beginner_engine : Recommend.RecommendationEngine :=
  (Recommend.create_user_profile "user123" "beginner"
     ["task_management"; "email"] 0 Recommend.new_engine).2.

(** * Properties *)

(** ** Dictionaries *)

Section DictFacts.
Context {K V : Type} `{EqDecision K}.
Implicit Types (d : list (K * V)) (k : K) (v : V).

Lemma dict_set_nonempty k v d : Dict.set k v d ≠ [].
Proof. destruct d as [|[k' v'] r]; simpl; [done|]. by case_decide. Qed.

Lemma dict_get_set k k' v d :
  Dict.get k' (Dict.set k v d) = if decide (k' = k) then Some v else Dict.get k' d.
Proof.
  induction d as [|[k0 v0] r IH]; simpl.
  - by repeat case_decide.
  - repeat (case_decide; simpl; simplify_eq); try done.
Qed.

Lemma dict_keys_set k v d :
  Dict.keys (Dict.set k v d) =
  match Dict.get k d with
  | Some _ => Dict.keys d
  | None => (Dict.keys d ++ [k])%list
  end.
Proof.
  unfold Dict.keys. induction d as [|[k0 v0] r IH]; csimpl; [done|].
  case_decide; simplify_eq; csimpl; [done|].
  rewrite IH. by destruct (Dict.get k r).
Qed.

Lemma dict_get_None k d : Dict.get k d = None ↔ k ∉ Dict.keys d.
Proof.
  unfold Dict.keys. induction d as [|[k0 v0] r IH]; csimpl.
  - split; [intros _; apply not_elem_of_nil | done].
  - rewrite not_elem_of_cons. case_decide as Hk.
    + split; [done | by intros [? _]].
    + rewrite IH. tauto.
Qed.

Lemma dict_get_Some_elem k v d : Dict.get k d = Some v → (k, v) ∈ d.
Proof.
  induction d as [|[k0 v0] r IH]; simpl; [done|].
  case_decide; simplify_eq.
  - intros [= ->]. left.
  - intros. right. auto.
Qed.

Lemma dict_elem_get k v d : Dict.wf d → (k, v) ∈ d → Dict.get k d = Some v.
Proof.
  unfold Dict.wf, Dict.keys. induction d as [|[k0 v0] r IH]; csimpl.
  - intros _ Hin. by apply elem_of_nil in Hin.
  - rewrite NoDup_cons. intros [Hk Hr] Hin.
    apply elem_of_cons in Hin as [Heq|Hin]; simplify_eq.
    + by rewrite decide_True.
    + rewrite decide_False; [auto|]. intros ->. apply Hk.
      by apply (list_elem_of_fmap_2 fst) in Hin.
Qed.

Lemma dict_set_wf k v d : Dict.wf d → Dict.wf (Dict.set k v d).
Proof.
  unfold Dict.wf. rewrite dict_keys_set. intros Hd.
  destruct (Dict.get k d) eqn:Hg; [done|].
  apply NoDup_app. split_and!; [done| |apply NoDup_singleton].
  intros x Hx ->%list_elem_of_singleton. by apply dict_get_None in Hg.
Qed.

Lemma dict_get_app k d1 d2 :
  Dict.get k (d1 ++ d2)
  = match Dict.get k d1 with Some v => Some v | None => Dict.get k d2 end.
Proof.
  induction d1 as [|[k0 v0] r IH]; simpl; [done|]. by case_decide.
Qed.

End DictFacts.

(** A dictionary filled key by key from the items of a well-formed one
    holds the image of each value under its own key. *)
Lemma dict_build_get {K V W} `{EqDecision K} (g : K → V → W) (items : list (K * V)) k :
  Dict.wf items →
  Dict.get k (foldl (λ acc kv, Dict.set kv.1 (g kv.1 kv.2) acc) [] items)
  = g k <$> Dict.get k items.
Proof.
  induction items as [|[k0 v0] items IH] using rev_ind; [done|].
  unfold Dict.wf, Dict.keys. rewrite fmap_app, NoDup_app. simpl.
  intros (Hwf & Hfresh & _).
  rewrite foldl_app. simpl. rewrite dict_get_set, dict_get_app. simpl.
  rewrite (IH Hwf). case_decide as Hk; [subst k|].
  - assert (Hnone : Dict.get k0 items = None).
    { apply dict_get_None. intros Hin. apply (Hfresh _ Hin). left. }
    by rewrite Hnone.
  - by destruct (Dict.get k items).
Qed.

(** ** Running a method *)

Lemma readonly_ret {A} (a : A) : readonly (mret a).
Proof. done. Qed.

Lemma readonly_attr {A} (f : UsagePatternAnalyzer → A) : readonly (attr f).
Proof. done. Qed.

Lemma readonly_lift {A} (r : result A) : readonly (lift r).
Proof. done. Qed.

Lemma readonly_bind {A B} (m : M A) (f : A → M B) :
  readonly m → (∀ a, readonly (f a)) → readonly (m ≫= f).
Proof.
  intros Hm Hf self. unfold mbind, M_bind.
  specialize (Hm self). destruct (m self) as [[a|e] self']; simpl in *; subst.
  - apply Hf.
  - done.
Qed.

Create HintDb readonly discriminated.
#[local] Hint Resolve readonly_ret readonly_attr readonly_lift : readonly.
#[local] Hint Extern 2 (readonly (_ ≫= _)) => apply readonly_bind; [|intros] : readonly.
#[local] Hint Extern 2 (readonly (match ?x with _ => _ end)) => destruct x : readonly.

Lemma analyze_feature_adoption_readonly : readonly analyze_feature_adoption.
Proof. unfold analyze_feature_adoption. auto 10 with readonly. Qed.

Lemma analyze_user_journeys_readonly : readonly analyze_user_journeys.
Proof. unfold analyze_user_journeys. auto 10 with readonly. Qed.

Lemma analyze_error_patterns_readonly : readonly analyze_error_patterns.
Proof. unfold analyze_error_patterns. auto 10 with readonly. Qed.

Lemma analyze_time_patterns_readonly : readonly analyze_time_patterns.
Proof. unfold analyze_time_patterns. auto 10 with readonly. Qed.

#[local] Hint Resolve analyze_feature_adoption_readonly analyze_user_journeys_readonly
  analyze_error_patterns_readonly analyze_time_patterns_readonly : readonly.

Lemma generate_comprehensive_report_readonly strftime_seconds format_percent now :
  readonly (generate_comprehensive_report strftime_seconds format_percent now).
Proof. unfold generate_comprehensive_report. auto 20 with readonly. Qed.

(** A read-only method answers the same when asked again. *)
Lemma readonly_repeat {A} (m : M A) self : readonly m → (m (m self).2).1 = (m self).1.
Proof. intros Hm. by rewrite Hm. Qed.

(** ** Frame and repeatability of the analyzers *)

(** C10.  Every analysis and reporting method leaves the engine as it
    found it: the events list, the per-user sessions, the feature counters
    and the error store after the call are the ones before it.  This holds
    also when [analyze_user_journeys], and with it the report, raises. *)
Theorem analysis_read_only strftime_seconds format_percent now self :
  (analyze_feature_adoption self).2 = self
  ∧ (analyze_user_journeys self).2 = self
  ∧ (analyze_error_patterns self).2 = self
  ∧ (analyze_time_patterns self).2 = self
  ∧ (generate_comprehensive_report strftime_seconds format_percent now self).2 = self.
Proof.
  split_and!.
  - apply analyze_feature_adoption_readonly.
  - apply analyze_user_journeys_readonly.
  - apply analyze_error_patterns_readonly.
  - apply analyze_time_patterns_readonly.
  - apply generate_comprehensive_report_readonly.
Qed.

(** C8.  Calling an analyzer a second time, on the engine the first call
    left behind and with no ingestion in between, gives the same outcome
    (the same report, or the same exception). *)
Theorem analyzers_repeatable self :
  (analyze_feature_adoption (analyze_feature_adoption self).2).1
    = (analyze_feature_adoption self).1
  ∧ (analyze_user_journeys (analyze_user_journeys self).2).1
    = (analyze_user_journeys self).1
  ∧ (analyze_error_patterns (analyze_error_patterns self).2).1
    = (analyze_error_patterns self).1
  ∧ (analyze_time_patterns (analyze_time_patterns self).2).1
    = (analyze_time_patterns self).1.
Proof. split_and!; apply readonly_repeat; auto with readonly. Qed.

(** ** The empty log *)

(** C7.  On the engine as [__init__] leaves it, each of the four analyzers
    returns normally: adoption gives its error value, the other three
    their report over empty collections (peak hour 0, peak day the empty
    string). *)
Theorem empty_log_reports :
  analyze_feature_adoption init = (Ok (AdoptionError "No usage data available"), init)
  ∧ analyze_user_journeys init
    = (Ok {| total_patterns := 0; most_common_patterns := []; journey_insights := [] |},
       init)
  ∧ analyze_error_patterns init
    = (Ok {| total_error_types := 0; errors := []; error_insights := [] |}, init)
  ∧ analyze_time_patterns init
    = (Ok {| hourly_distribution := []; daily_distribution := [];
             peak_hour := 0; peak_day := "";
             time_insights :=
               [ "Peak usage hour: 0:00 with 0 events";
                 "Peak usage day:  with 0 events";
                 "Consider scheduling maintenance during low-activity periods" ] |},
       init).
Proof. split_and!; vm_compute; reflexivity. Qed.

(** ** Ingestion *)

(** C3, as stated, does not hold: with an empty user id the call returns
    normally and the event is in the log. *)
Lemma track_event_accepts_empty_user_id :
  track_event "login" "" None 0 init
  = (Ok (),
     let e := mkEvent "login" "" 0 [] in
     {| events := [e]; user_sessions := [("", [e])];
        feature_usage := []; error_patterns := [] |})
  ∧ ¬ fails_iff_user_id_empty.
Proof.
  split; [reflexivity|].
  intros Hclaim.
  destruct (proj2 (Hclaim "login" "" None 0%Z init) eq_refl) as [e He].
  discriminate He.
Qed.

(** C3, amended.  [track_event] never fails, whatever the user id, the
    empty one included: it returns normally and the log is the old log
    followed by the one new event, which also ends that user's session. *)
Theorem track_event_total event_type user_id md now self :
  let event := mkEvent event_type user_id now (default [] md) in
  ∃ self',
    track_event event_type user_id md now self = (Ok (), self')
    ∧ events self' = (events self ++ [event])%list
    ∧ Dict.get user_id (user_sessions self')
      = Some (default [] (Dict.get user_id (user_sessions self)) ++ [event])%list
    ∧ error_patterns self' = error_patterns self.
Proof.
  intros event. unfold track_event, mbind, M_bind, update; simpl.
  destruct (startswith "feature_" event_type); simpl;
    (eexists; split; [reflexivity|]; simpl; split_and!; [done| |done]);
    unfold dd_append; rewrite dict_get_set; by rewrite decide_True.
Qed.

(** Events outside the [feature_] convention leave the counters alone. *)
Lemma track_event_other_type event_type user_id md now self :
  startswith "feature_" event_type = false →
  feature_usage (track_event event_type user_id md now self).2 = feature_usage self.
Proof.
  intros Hp. unfold track_event, mbind, M_bind, update; simpl. by rewrite Hp.
Qed.

(** C4.  The counter key is computed with [str.replace], which removes
    every occurrence of the prefix text and not only the leading one: the
    type [feature_a_feature_b] is counted under [a_b], and nothing is
    counted under [a_feature_b]. *)
Theorem track_event_feature_key :
  let self := (track_event "feature_a_feature_b" "u1" None 0 init).2 in
  feature_usage self = [("a_b", 1%nat)]
  ∧ Dict.get "a_feature_b" (feature_usage self) = None.
Proof. split; reflexivity. Qed.

(** ** User journeys *)

Lemma dd_incr_nonempty {K} `{EqDecision K} (k : K) d : dd_incr k d ≠ [].
Proof. apply dict_set_nonempty. Qed.

Lemma count_steps_nonempty (evs : list Event) idx jp :
  jp ≠ [] →
  foldl (λ jp i,
           match evs !! i, evs !! (i + 1)%nat with
           | Some a, Some b => dd_incr (ev_type a +:+ " -> " +:+ ev_type b) jp
           | _, _ => jp
           end) jp idx ≠ [].
Proof.
  revert jp. induction idx as [|i idx IH]; intros jp Hjp; simpl; [done|].
  apply IH. destruct (evs !! i); [|done].
  destruct (evs !! (i + 1)%nat); [apply dd_incr_nonempty | done].
Qed.

Lemma count_transitions_keeps jp evs : jp ≠ [] → count_transitions jp evs ≠ [].
Proof.
  intros Hjp. unfold count_transitions.
  destruct (length evs <? 2)%nat; [done|]. by apply count_steps_nonempty.
Qed.

Lemma count_transitions_nonempty jp evs :
  (2 ≤ length evs)%nat → count_transitions jp evs ≠ [].
Proof.
  intros Hlen. unfold count_transitions.
  destruct (Nat.ltb_spec (length evs) 2); [lia|].
  destruct evs as [|a [|b evs]]; simpl in *; try lia.
  apply count_steps_nonempty, dd_incr_nonempty.
Qed.

Lemma journey_patterns_nonempty (sessions : list (string * list Event)) jp :
  jp ≠ [] ∨ (∃ us, us ∈ sessions ∧ (2 ≤ length us.2)%nat) →
  foldl (λ jp us, count_transitions jp us.2) jp sessions ≠ [].
Proof.
  revert jp. induction sessions as [|us sessions IH]; intros jp H; simpl.
  - destruct H as [H|(us & Hin & _)]; [done | by apply elem_of_nil in Hin].
  - apply IH. destruct H as [H|(us' & Hin & Hlen)].
    + left. by apply count_transitions_keeps.
    + apply elem_of_cons in Hin as [->|Hin].
      * left. by apply count_transitions_nonempty.
      * right. eauto.
Qed.

Lemma insert_desc_length {K} (x : K * nat) l :
  length (insert_desc x l) = S (length l).
Proof.
  induction l as [|y r IH]; simpl; [done|].
  destruct (y.2 <=? x.2)%nat; simpl; by rewrite ?IH.
Qed.

Lemma sorted_desc_length {K} (l : list (K * nat)) : length (sorted_desc l) = length l.
Proof.
  unfold sorted_desc. induction l as [|x l IH]; simpl; [done|].
  by rewrite insert_desc_length, IH.
Qed.

Lemma journey_insights_raise pc patterns :
  _generate_journey_insights (pc :: patterns)
  = Raise (KeyError "pattern_frequency_threshold").
Proof.
  unfold _generate_journey_insights. simpl.
  change (subscript SUGGESTION_THRESHOLDS "pattern_frequency_threshold")
    with (@Raise Q (KeyError "pattern_frequency_threshold")).
  simpl. induction patterns as [|p ps IH]; simpl; done.
Qed.

(** C1.  [SUGGESTION_THRESHOLDS] has no entry [pattern_frequency_threshold].
    As soon as one user has two events there is a pattern to look at, the
    lookup of the threshold raises [KeyError], and no report is returned. *)
Theorem analyze_user_journeys_raises self :
  (∃ user_id evs, (user_id, evs) ∈ user_sessions self ∧ (2 ≤ length evs)%nat) →
  (analyze_user_journeys self).1 = Raise (KeyError "pattern_frequency_threshold").
Proof.
  intros (u & evs & Hin & Hlen).
  unfold analyze_user_journeys, mbind, M_bind, attr, lift. simpl.
  set (jp := foldl _ [] (user_sessions self)).
  assert (Hjp : jp ≠ []).
  { apply journey_patterns_nonempty. right. exists (u, evs). done. }
  assert (Hs : (0 < length (sorted_desc jp))%nat).
  { rewrite sorted_desc_length. destruct jp; [done | simpl; lia]. }
  destruct (sorted_desc jp) as [|pc ps]; [simpl in Hs; lia|].
  simpl. by rewrite journey_insights_raise.
Qed.

Lemma analyze_user_journeys_raises_witness :
  (analyze_user_journeys (replay login_then_search)).1
  = Raise (KeyError "pattern_frequency_threshold").
Proof.
  apply (analyze_user_journeys_raises (replay login_then_search)).
  exists "u1", [mkEvent "login" "u1" 0 []; mkEvent "search" "u1" 5 []].
  split; [vm_compute; left | simpl; lia].
Defined.

(** ** Time patterns *)

Section Buckets.
Context {K : Type} `{EqDecision K} (key : Event → K).
Implicit Types (evs : list Event) (k : K).

Lemma bucket_counts_snoc evs e :
  bucket_counts key (evs ++ [e]) = dd_incr (key e) (bucket_counts key evs).
Proof. unfold bucket_counts. by rewrite foldl_app. Qed.

Lemma bucket_size_snoc k evs e :
  bucket_size key k (evs ++ [e]) = (bucket_size key k evs + if decide (key e = k) then 1 else 0)%nat.
Proof.
  unfold bucket_size. rewrite filter_app, length_app. f_equal.
  rewrite filter_cons, filter_nil. by case_decide.
Qed.

Lemma bucket_size_zero k evs : bucket_size key k evs = 0%nat ↔ first_seen key k evs = None.
Proof.
  unfold bucket_size, first_seen. rewrite fmap_None, list_find_None.
  induction evs as [|e evs IH]; simpl.
  - split; [constructor | done].
  - rewrite filter_cons, Forall_cons. case_decide; simpl.
    + split; [done | by intros [? _]].
    + rewrite IH. tauto.
Qed.

Lemma first_seen_lt k evs : bucket_size key k evs ≠ 0%nat →
  ∃ i, first_seen key k evs = Some i ∧ (i < length evs)%nat.
Proof.
  rewrite bucket_size_zero. unfold first_seen.
  destruct (list_find _ evs) as [[i e]|] eqn:Hf; [intros _ | done].
  exists i. split; [done|].
  apply list_find_Some in Hf as (Hi & _). by apply lookup_lt_Some in Hi.
Qed.

Lemma first_seen_app_l k evs e i :
  first_seen key k evs = Some i → first_seen key k (evs ++ [e]) = Some i.
Proof.
  unfold first_seen. destruct (list_find _ evs) as [[j x]|] eqn:Hf; [|done].
  intros [= <-]. by rewrite (list_find_app_l _ _ _ _ _ Hf).
Qed.

Lemma first_seen_new evs e :
  first_seen key (key e) evs = None → first_seen key (key e) (evs ++ [e]) = Some (length evs).
Proof.
  unfold first_seen. intros Hn%fmap_None.
  rewrite list_find_app_r by done. simpl. rewrite decide_True by done. simpl.
  done.
Qed.

Lemma seen_before_snoc evs e k k' :
  seen_before key evs k k' → seen_before key (evs ++ [e]) k k'.
Proof.
  intros (i & j & Hi & Hj & Hlt). exists i, j. eauto using first_seen_app_l.
Qed.

Lemma StronglySorted_weaken {A} (R1 R2 : relation A) (l : list A) :
  (∀ x y, R1 x y → R2 x y) → StronglySorted R1 l → StronglySorted R2 l.
Proof.
  intros HR. induction 1 as [|x l Hl IH Hx]; constructor; [done|].
  eapply Forall_impl; eauto.
Qed.

(** What the aggregation loop builds: one entry per bucket that has an
    event, holding the bucket size, the entries in the order in which the
    buckets were first seen. *)
Lemma bucket_counts_spec evs :
  Dict.wf (bucket_counts key evs)
  ∧ (∀ k, Dict.get k (bucket_counts key evs)
          = if decide (bucket_size key k evs = 0%nat) then None
            else Some (bucket_size key k evs))
  ∧ StronglySorted (seen_before key evs) (Dict.keys (bucket_counts key evs)).
Proof.
  induction evs as [|e evs (Hwf & Hget & Hsort)] using rev_ind.
  { split_and!; [apply NoDup_nil_2 | done | constructor]. }
  rewrite bucket_counts_snoc. unfold dd_incr. split_and!.
  - by apply dict_set_wf.
  - intros k. rewrite dict_get_set, bucket_size_snoc, !Hget.
    repeat case_decide; simplify_eq/=; first [done | lia | f_equal; lia].
  - rewrite dict_keys_set. destruct (Dict.get (key e) _) eqn:Hg.
    + eapply StronglySorted_weaken; [|done]. intros x y. apply seen_before_snoc.
    + apply StronglySorted_app. split_and!.
      * intros k1 k2 Hk1 ->%list_elem_of_singleton.
        assert (Hsz : bucket_size key k1 evs ≠ 0%nat).
        { intros Hz. eapply (proj1 (dict_get_None k1 _)); [|exact Hk1].
          by rewrite Hget, decide_True. }
        destruct (first_seen_lt _ _ Hsz) as (i & Hi & Hlt).
        exists i, (length evs). split_and!; [by apply first_seen_app_l | | done].
        apply first_seen_new, bucket_size_zero.
        rewrite Hget in Hg. by case_decide.
      * eapply StronglySorted_weaken; [|done]. intros x y. apply seen_before_snoc.
      * repeat constructor.
Qed.

Lemma max_fold_spec (r : list (K * nat)) best :
  let x := foldl (λ best y, if (best.2 <? y.2)%nat then y else best) best r in
  (x = best ∧ Forall (λ y, y.2 ≤ best.2)%nat r)
  ∨ (∃ r1 r2, r = (r1 ++ x :: r2)%list ∧ (best.2 < x.2)%nat
       ∧ Forall (λ y, y.2 < x.2)%nat r1 ∧ Forall (λ y, y.2 ≤ x.2)%nat r2).
Proof.
  revert best. induction r as [|y r IH]; intros best; simpl.
  { left. split; [done | constructor]. }
  destruct (Nat.ltb_spec best.2 y.2) as [Hlt|Hge].
  - right. destruct (IH y) as [[Hx Hall]|(r1 & r2 & Hr & Hlt' & H1 & H2)].
    + exists [], r. rewrite Hx. split_and!; [done | done | constructor | done].
    + exists (y :: r1), r2. split_and!; [by rewrite Hr at 1 | lia | | done].
      constructor; [lia | done].
  - destruct (IH best) as [[Hx Hall]|(r1 & r2 & Hr & Hlt' & H1 & H2)].
    + left. split; [done|]. constructor; [lia | done].
    + right. exists (y :: r1), r2. split_and!; [by rewrite Hr at 1 | done | | done].
      constructor; [lia | done].
Qed.

(** Python's [max] with a key returns the first of the maximal items. *)
Lemma max_by_count_spec (items : list (K * nat)) :
  items ≠ [] →
  ∃ x l1 l2, max_by_count items = Some x ∧ items = (l1 ++ x :: l2)%list
    ∧ Forall (λ y, y.2 < x.2)%nat l1 ∧ Forall (λ y, y.2 ≤ x.2)%nat l2.
Proof.
  destruct items as [|b r]; [done | intros _]. simpl.
  destruct (max_fold_spec r b) as [[Hx Hall]|(r1 & r2 & Hr & Hlt & H1 & H2)].
  - eexists _, [], r. split_and!; [done | by rewrite Hx | constructor | by rewrite Hx].
  - eexists _, (b :: r1), r2. split_and!; [done | by rewrite Hr at 1 | | done].
    constructor; [lia | done].
Qed.

Lemma peak_bucket_spec evs dflt :
  evs ≠ [] →
  let peak := default dflt (max_by_count (bucket_counts key evs)) in
  Dict.get peak.1 (bucket_counts key evs) = Some peak.2
  ∧ peak.2 = bucket_size key peak.1 evs
  ∧ (∀ k, bucket_size key k evs ≤ peak.2)%nat
  ∧ (∀ k, k ≠ peak.1 → bucket_size key k evs = peak.2 → seen_before key evs peak.1 k).
Proof.
  intros Hne. destruct (bucket_counts_spec evs) as (Hwf & Hget & Hsort).
  assert (Hitems : bucket_counts key evs ≠ []).
  { destruct evs as [|e evs _] using rev_ind; [done|].
    rewrite bucket_counts_snoc. apply dd_incr_nonempty. }
  destruct (max_by_count_spec _ Hitems) as (x & l1 & l2 & -> & Hsplit & H1 & H2).
  simpl.
  assert (Hx : Dict.get x.1 (bucket_counts key evs) = Some x.2).
  { apply dict_elem_get; [done|]. rewrite Hsplit. destruct x. set_solver. }
  assert (Hin : ∀ k, bucket_size key k evs ≠ 0%nat → (k, bucket_size key k evs) ∈ l1 ++ x :: l2).
  { intros k Hk. rewrite <- Hsplit. apply dict_get_Some_elem.
    by rewrite Hget, decide_False. }
  assert (Hxsz : x.2 = bucket_size key x.1 evs).
  { rewrite Hget in Hx. case_decide; by simplify_eq. }
  split_and!; [done | done | |].
  - intros k. destruct (decide (bucket_size key k evs = 0%nat)) as [->|Hk]; [lia|].
    specialize (Hin k Hk). rewrite elem_of_app, elem_of_cons in Hin.
    destruct Hin as [Hin|[<-|Hin]]; [|done|].
    + rewrite Forall_forall in H1. apply H1 in Hin. simpl in Hin. lia.
    + rewrite Forall_forall in H2. by apply H2 in Hin.
  - intros k Hkx Hsz.
    assert (Hk : bucket_size key k evs ≠ 0%nat).
    { rewrite Hsz, Hxsz. rewrite Hget in Hx. by case_decide. }
    specialize (Hin k Hk). rewrite elem_of_app, elem_of_cons in Hin.
    destruct Hin as [Hin|[Heq|Hin]].
    + rewrite Forall_forall in H1. apply H1 in Hin. simpl in Hin. lia.
    + destruct x; simplify_eq/=.
    + unfold Dict.keys in Hsort. rewrite Hsplit, fmap_app, fmap_cons in Hsort.
      apply StronglySorted_app_1_r, StronglySorted_cons in Hsort as [Hall _].
      rewrite Forall_forall in Hall. apply Hall.
      by apply (list_elem_of_fmap_2 fst) in Hin.
Qed.
End Buckets.

(** C9.  On a log with at least one event, [peak_hour] is a bucket of the
    hourly distribution, its count is the number of events of that hour,
    no hour has more events, and every other hour with as many events was
    first seen later in the log.  The same holds for [peak_day]. *)
Theorem peak_is_first_largest_bucket self :
  events self ≠ [] →
  ∃ r, analyze_time_patterns self = (Ok r, self)
    ∧ Dict.get (peak_hour r) (hourly_distribution r)
      = Some (bucket_size event_hour (peak_hour r) (events self))
    ∧ (∀ h, bucket_size event_hour h (events self)
            ≤ bucket_size event_hour (peak_hour r) (events self))%nat
    ∧ (∀ h, h ≠ peak_hour r →
            bucket_size event_hour h (events self)
            = bucket_size event_hour (peak_hour r) (events self) →
            seen_before event_hour (events self) (peak_hour r) h)
    ∧ Dict.get (peak_day r) (daily_distribution r)
      = Some (bucket_size event_weekday (peak_day r) (events self))
    ∧ (∀ d, bucket_size event_weekday d (events self)
            ≤ bucket_size event_weekday (peak_day r) (events self))%nat
    ∧ (∀ d, d ≠ peak_day r →
            bucket_size event_weekday d (events self)
            = bucket_size event_weekday (peak_day r) (events self) →
            seen_before event_weekday (events self) (peak_day r) d).
Proof.
  intros Hne.
  destruct (peak_bucket_spec event_hour (events self) (0%Z, 0%nat) Hne)
    as (Hh1 & Hh2 & Hh3 & Hh4).
  destruct (peak_bucket_spec event_weekday (events self) ("", 0%nat) Hne)
    as (Hd1 & Hd2 & Hd3 & Hd4).
  eexists. split; [reflexivity|]. simpl.
  rewrite <- Hh2, <- Hd2. split_and!; done.
Qed.

Lemma peak_is_first_largest_bucket_witness :
  events (replay nine_and_fourteen) ≠ []
  ∧ ∃ r, analyze_time_patterns (replay nine_and_fourteen)
         = (Ok r, replay nine_and_fourteen)
      ∧ peak_hour r = 14%Z
      ∧ seen_before event_hour (events (replay nine_and_fourteen)) (peak_hour r) 9%Z.
Proof.
  assert (Hne : events (replay nine_and_fourteen) ≠ []) by (vm_compute; discriminate).
  split; [exact Hne|].
  destruct (peak_is_first_largest_bucket (replay nine_and_fourteen) Hne)
    as (r & Hr & _ & _ & Htie & _).
  exists r. split; [exact Hr|].
  assert (Hpeak : peak_hour r = 14%Z).
  { vm_compute in Hr. by injection Hr as <-. }
  split; [exact Hpeak|].
  apply Htie; rewrite Hpeak; vm_compute; [discriminate | reflexivity].
Defined.

(** ** Error patterns *)

Lemma max_datetime_spec t ts :
  max_datetime t ts ∈ t :: ts ∧ ∀ t', t' ∈ t :: ts → (t' ≤ max_datetime t ts)%Z.
Proof.
  unfold max_datetime. revert t. induction ts as [|x ts IH]; intros t; simpl.
  - split; [left|]. intros t' ->%list_elem_of_singleton. lia.
  - destruct (IH (Z.max t x)) as [Hin Hub]. split.
    + apply elem_of_cons in Hin as [Heq|Hin]; [|by do 2 right].
      rewrite Heq. destruct (Z.max_spec t x) as [[_ ->]|[_ ->]]; [right|]; left.
    + intros t' Ht'. rewrite !elem_of_cons in Ht'.
      pose proof (Hub (Z.max t x) ltac:(left)).
      destruct Ht' as [->|[->|Ht']]; [lia | lia |]. apply Hub. by right.
Qed.

Lemma min_datetime_spec t ts :
  min_datetime t ts ∈ t :: ts ∧ ∀ t', t' ∈ t :: ts → (min_datetime t ts ≤ t')%Z.
Proof.
  unfold min_datetime. revert t. induction ts as [|x ts IH]; intros t; simpl.
  - split; [left|]. intros t' ->%list_elem_of_singleton. lia.
  - destruct (IH (Z.min t x)) as [Hin Hlb]. split.
    + apply elem_of_cons in Hin as [Heq|Hin]; [|by do 2 right].
      rewrite Heq. destruct (Z.min_spec t x) as [[_ ->]|[_ ->]]; [|right]; left.
    + intros t' Ht'. rewrite !elem_of_cons in Ht'.
      pose proof (Hlb (Z.min t x) ltac:(left)).
      destruct Ht' as [->|[->|Ht']]; [lia | lia |]. apply Hlb. by right.
Qed.

Lemma py_max_Qmax (a b : Q) : (py_max a b == Qmax a b)%Q.
Proof.
  unfold py_max, Qlt_bool. destruct (Qle_bool b a) eqn:Hle; simpl.
  - apply Qle_bool_iff in Hle. symmetry. by apply Q.max_l.
  - symmetry. apply Q.max_r. apply Qlt_le_weak, Qnot_le_lt.
    intros Hba. apply Qle_bool_iff in Hba. congruence.
Qed.

Lemma days_span_in_days lo hi :
  (total_seconds (hi - lo) / 86400 == span_in_days lo hi)%Q.
Proof. unfold total_seconds, span_in_days, microseconds_per_day. field. Qed.

Lemma frequency_spec occs lo hi :
  is_earliest lo occs → is_latest hi occs →
  (frequency occs == Q_of_nat (length occs) / Qmax (span_in_days lo hi) 1)%Q.
Proof.
  intros [Hlo1 Hlo2] [Hhi1 Hhi2]. unfold frequency.
  destruct (err_timestamp <$> occs) as [|t ts] eqn:Hts.
  { by apply elem_of_nil in Hlo1. }
  destruct (max_datetime_spec t ts) as [Hmax1 Hmax2].
  destruct (min_datetime_spec t ts) as [Hmin1 Hmin2].
  assert (max_datetime t ts = hi) as -> by (apply Z.le_antisymm; auto).
  assert (min_datetime t ts = lo) as -> by (apply Z.le_antisymm; auto).
  simpl. by rewrite py_max_Qmax, days_span_in_days.
Qed.

Lemma same_day_span lo hi :
  (lo ≤ hi)%Z → calendar_day lo = calendar_day hi → (span_in_days lo hi <= 1)%Q.
Proof.
  unfold calendar_day, span_in_days, microseconds_per_day. intros Hle Hday.
  assert (hi - lo < 86400000000)%Z by (Z.div_mod_to_equations; lia).
  apply Qle_shift_div_r; [reflexivity|].
  rewrite Qmult_1_l. rewrite <- Zle_Qle. lia.
Qed.

(** C5.  For an error type with occurrences, the reported frequency is
    the number of occurrences divided by the larger of 1 and the span, in
    fractional days, from the earliest to the latest occurrence.  When all
    occurrences fall on one calendar day the divisor is 1 and the frequency
    is the number of occurrences. *)
Theorem frequency_per_day_floor self error_type occs lo hi :
  Dict.wf (error_patterns self) →
  Dict.get error_type (error_patterns self) = Some occs →
  is_earliest lo occs →
  is_latest hi occs →
  ∃ r stats,
    analyze_error_patterns self = (Ok r, self)
    ∧ Dict.get error_type (errors r) = Some stats
    ∧ occurrences stats = length occs
    ∧ (frequency_per_day stats
       == Q_of_nat (length occs) / Qmax (span_in_days lo hi) 1)%Q
    ∧ (same_calendar_day occs →
       (frequency_per_day stats == Q_of_nat (length occs))%Q).
Proof.
  intros Hwf Hget Hlo Hhi.
  eexists _, (error_stats occs). split; [reflexivity|]. simpl.
  split. { rewrite (dict_build_get (λ _ o, error_stats o)) by done. by rewrite Hget. }
  split; [done|].
  pose proof (frequency_spec occs lo hi Hlo Hhi) as Hf.
  split; [done|].
  intros Hday. rewrite Hf.
  assert (Hspan : (span_in_days lo hi <= 1)%Q).
  { destruct Hlo as [Hlo1 Hlo2], Hhi as [Hhi1 Hhi2].
    apply same_day_span; [by apply Hlo2|].
    apply list_elem_of_fmap in Hlo1 as (o & -> & Ho).
    apply list_elem_of_fmap in Hhi1 as (o' & -> & Ho').
    by apply Hday. }
  rewrite (Q.max_r _ _ Hspan). field.
Qed.

Lemma frequency_per_day_floor_witness :
  ∃ r stats,
    analyze_error_patterns (replay timeout_burst) = (Ok r, replay timeout_burst)
    ∧ Dict.get "timeout" (errors r) = Some stats
    ∧ occurrences stats = 3%nat
    ∧ (frequency_per_day stats == 3 / Qmax (span_in_days 0 5000) 1)%Q
    ∧ (same_calendar_day
         [mkError "u1" 0 []; mkError "u2" 1000 []; mkError "u1" 5000 []] →
       (frequency_per_day stats == 3)%Q).
Proof.
  apply (frequency_per_day_floor (replay timeout_burst) "timeout"
           [mkError "u1" 0 []; mkError "u2" 1000 []; mkError "u1" 5000 []] 0 5000).
  - apply NoDup_singleton.
  - reflexivity.
  - split; [left|]. simpl. intros t' Ht'.
    repeat (apply elem_of_cons in Ht' as [->|Ht']; [lia|]).
    by apply elem_of_nil in Ht'.
  - split; [do 2 right; left|]. simpl. intros t' Ht'.
    repeat (apply elem_of_cons in Ht' as [->|Ht']; [lia|]).
    by apply elem_of_nil in Ht'.
Defined.

(** ** Consistency of the engine with its log *)

Lemma track_event_state event_type user_id md now self :
  (track_event event_type user_id md now self).2
  = let event := mkEvent event_type user_id now (default [] md) in
    {| events := events self ++ [event];
       user_sessions := dd_append user_id event (user_sessions self);
       feature_usage :=
         if startswith "feature_" event_type
         then dd_incr (str_replace "feature_" "" event_type) (feature_usage self)
         else feature_usage self;
       error_patterns := error_patterns self |}.
Proof.
  unfold track_event, mbind, M_bind, update. simpl.
  by destruct (startswith "feature_" event_type).
Qed.

Lemma init_consistent : consistent init.
Proof. split; simpl; try apply NoDup_nil_2. done. Qed.

Lemma call_consistent c self : consistent self → consistent (call c self).2.
Proof.
  intros [Hs Hu He Hse]. destruct c as [t u md now|t u cx now]; simpl.
  - rewrite track_event_state. split; simpl.
    + by apply dict_set_wf.
    + destruct (startswith "feature_" t); [by apply dict_set_wf | done].
    + done.
    + intros u'. unfold dd_append. rewrite dict_get_set, !Hse.
      unfold session_of. rewrite filter_app, filter_cons, filter_nil. simpl.
      case_decide as Hu'; [subst u'|].
      * rewrite decide_True by done.
        by destruct (filter _ (events self)).
      * rewrite decide_False by done. by rewrite app_nil_r.
  - split; simpl; [done | done | by apply dict_set_wf | done].
Qed.

Lemma replay_snoc cs c : replay (cs ++ [c]) = (call c (replay cs)).2.
Proof. unfold replay. by rewrite foldl_app. Qed.

Lemma replay_consistent cs : consistent (replay cs).
Proof.
  induction cs as [|c cs IH] using rev_ind; [apply init_consistent|].
  rewrite replay_snoc. by apply call_consistent.
Qed.

(** ** Feature adoption *)

Lemma users_inner_elem feature (u0 : string) evs (acc : gset string) u :
  u ∈ foldl (λ acc event,
               if decide (ev_type event = "feature_" +:+ feature)
               then {[ u0 ]} ∪ acc else acc) acc evs
  ↔ u ∈ acc ∨ (u = u0 ∧ ∃ e, e ∈ evs ∧ ev_type e = "feature_" +:+ feature).
Proof.
  revert acc. induction evs as [|e evs IH]; intros acc; simpl.
  - split; [by left|]. intros [?|(_ & e & He & _)]; [done|].
    by apply elem_of_nil in He.
  - rewrite IH. case_decide as Ht.
    + rewrite elem_of_union, elem_of_singleton. split.
      * intros [[->|?]|(-> & e' & He' & Hty)]; [right|by left|right].
        -- split; [done|]. exists e. split; [left | done].
        -- split; [done|]. exists e'. split; [by right | done].
      * intros [?|(-> & _)]; left; [by right | by left].
    + split.
      * intros [?|(-> & e' & He' & Hty)]; [by left|right].
        split; [done|]. exists e'. split; [by right | done].
      * intros [?|(-> & e' & He' & Hty)]; [by left|].
        apply elem_of_cons in He' as [->|He']; [done|].
        right. split; [done|]. by exists e'.
Qed.

Lemma users_using_feature_elem feature sessions u :
  u ∈ users_using_feature feature sessions
  ↔ ∃ l e, (u, l) ∈ sessions ∧ e ∈ l ∧ ev_type e = "feature_" +:+ feature.
Proof.
  unfold users_using_feature.
  cut (∀ acc : gset string,
         u ∈ foldl (λ acc us,
                      foldl (λ acc event,
                               if decide (ev_type event = "feature_" +:+ feature)
                               then {[ us.1 ]} ∪ acc else acc) acc us.2) acc sessions
         ↔ u ∈ acc ∨ ∃ l e, (u, l) ∈ sessions ∧ e ∈ l
                             ∧ ev_type e = "feature_" +:+ feature).
  { intros H. rewrite H. split; [intros [?|?]; [set_solver | done] | by right]. }
  induction sessions as [|[u0 l0] sessions IH]; intros acc; simpl.
  - split; [by left|]. intros [?|(l & e & Hin & _)]; [done|].
    by apply elem_of_nil in Hin.
  - rewrite IH, users_inner_elem. split.
    + intros [[?|(-> & e & He & Hty)]|(l & e & Hin & He & Hty)].
      * by left.
      * right. exists l0, e. split_and!; [left | done | done].
      * right. exists l, e. split_and!; [by right | done | done].
    + intros [?|(l & e & Hin & He & Hty)]; [by do 2 left|].
      apply elem_of_cons in Hin as [[= -> ->]|Hin].
      * left. right. split; [done|]. by exists e.
      * right. by exists l, e.
Qed.

Lemma consistent_session_elem self u l :
  consistent self → (u, l) ∈ user_sessions self → l = session_of u (events self).
Proof.
  intros [Hs _ _ Hse] Hin. apply (dict_elem_get _ _ _ Hs) in Hin.
  rewrite Hse in Hin. by destruct (session_of u (events self)); simplify_eq.
Qed.

Lemma consistent_event_session self e :
  consistent self → e ∈ events self →
  (ev_user_id e, session_of (ev_user_id e) (events self)) ∈ user_sessions self.
Proof.
  intros [_ _ _ Hse] He. apply dict_get_Some_elem. rewrite Hse.
  assert (Hin : e ∈ session_of (ev_user_id e) (events self)).
  { unfold session_of. by apply list_elem_of_filter. }
  destruct (session_of _ _); [by apply elem_of_nil in Hin | done].
Qed.

Lemma consistent_users_using self feature :
  consistent self →
  users_using_feature feature (user_sessions self)
  = users_triggering feature (events self).
Proof.
  intros Hc. apply set_eq. intros u.
  rewrite users_using_feature_elem. unfold users_triggering.
  rewrite elem_of_list_to_set, list_elem_of_fmap. split.
  - intros (l & e & Hin & He & Hty).
    apply (consistent_session_elem _ _ _ Hc) in Hin. subst l.
    apply list_elem_of_filter in He as [Hu He].
    exists e. split; [done|]. by apply list_elem_of_filter.
  - intros (e & -> & [Hty He]%list_elem_of_filter).
    exists (session_of (ev_user_id e) (events self)), e.
    split_and!; [by apply consistent_event_session | | done].
    unfold session_of. by apply list_elem_of_filter.
Qed.

Lemma consistent_total_users self :
  consistent self → length (user_sessions self) = size (event_users (events self)).
Proof.
  intros Hc.
  assert (Hk : event_users (events self) = list_to_set (Dict.keys (user_sessions self))).
  { apply set_eq. intros u. unfold event_users, Dict.keys.
    rewrite !elem_of_list_to_set, !list_elem_of_fmap. split.
    - intros (e & -> & He). eexists (_, _). split; [|by apply consistent_event_session]. done.
    - intros ([u' l] & -> & Hin). simpl.
      pose proof (consistent_session_elem _ _ _ Hc Hin) as Hl.
      destruct Hc as [Hs _ _ Hse]. apply (dict_elem_get _ _ _ Hs) in Hin.
      rewrite Hse in Hin.
      destruct (session_of u' (events self)) as [|e l'] eqn:Hsess; [done|].
      assert (He : e ∈ session_of u' (events self)) by (rewrite Hsess; left).
      apply list_elem_of_filter in He as [Hu He]. by exists e. }
  rewrite Hk, size_list_to_set by apply Hc.
  unfold Dict.keys. by rewrite length_fmap.
Qed.

(** C2, as stated, does not hold: [track_error] does not touch
    [user_sessions], so a user known only from an error is not counted.
    One user with a feature event and another with an error give the rate
    1, not 1/2. *)
Lemma error_only_user_not_counted :
  (analyze_feature_adoption (replay one_event_one_error)).1
  = Ok (Adoption 1 [("x", mkFeatureStats 1 1 1 "high_adoption")] [])
  ∧ size (log_users (replay one_event_one_error)) = 2%nat
  ∧ size (users_triggering "x" (events (replay one_event_one_error))) = 1%nat
  ∧ ¬ rate_over_log_users.
Proof.
  split_and!; [vm_compute; reflexivity..|].
  intros Hclaim.
  specialize (Hclaim one_event_one_error 1%nat
                [("x", mkFeatureStats 1 1 1 "high_adoption")] [] "x"
                (mkFeatureStats 1 1 1 "high_adoption")).
  assert (H : (1 == Q_of_nat 1 / Q_of_nat 2)%Q).
  { apply Hclaim; vm_compute; reflexivity. }
  vm_compute in H. discriminate H.
Qed.

(** C2, amended.  For a log with at least one event the adoption report
    is returned, and for every feature in it [unique_users] is the number
    of distinct users with an event of type [feature_<name>] and
    [adoption_rate] is that number divided by the number of distinct users
    with an event; users known only from error occurrences are not
    counted. *)
Theorem adoption_rate_over_event_users cs :
  events (replay cs) ≠ [] →
  ∃ n feats ins,
    analyze_feature_adoption (replay cs) = (Ok (Adoption n feats ins), replay cs)
    ∧ size (event_users (events (replay cs))) ≠ 0%nat
    ∧ ∀ feature stats,
        Dict.get feature feats = Some stats →
        unique_users stats = size (users_triggering feature (events (replay cs)))
        ∧ (adoption_rate stats
           == Q_of_nat (size (users_triggering feature (events (replay cs))))
              / Q_of_nat (size (event_users (events (replay cs)))))%Q.
Proof.
  intros Hne. pose proof (replay_consistent cs) as Hc.
  pose proof (consistent_total_users _ Hc) as Htot.
  assert (Hlen : length (user_sessions (replay cs)) ≠ 0%nat).
  { destruct (events (replay cs)) as [|e evs] eqn:Hev; [done|].
    assert (He : e ∈ events (replay cs)) by (rewrite Hev; left).
    apply (consistent_event_session _ _ Hc) in He.
    destruct (user_sessions (replay cs)); [by apply elem_of_nil in He | done]. }
  unfold analyze_feature_adoption, mbind, M_bind, attr, mret, M_ret. simpl.
  rewrite decide_False by done.
  eexists _, _, _. split; [reflexivity|]. split; [by rewrite <- Htot|].
  intros feature stats.
  rewrite (dict_build_get (feature_stats (user_sessions (replay cs))))
    by apply Hc.
  destruct (Dict.get feature (feature_usage (replay cs))) as [count|]; [|done].
  intros [= <-]. simpl.
  by rewrite consistent_users_using, Htot.
Qed.

Lemma adoption_rate_over_event_users_witness :
  events (replay one_event_one_error) ≠ []
  ∧ ∃ n feats ins,
      analyze_feature_adoption (replay one_event_one_error)
      = (Ok (Adoption n feats ins), replay one_event_one_error)
      ∧ size (event_users (events (replay one_event_one_error))) ≠ 0%nat
      ∧ ∀ feature stats,
          Dict.get feature feats = Some stats →
          unique_users stats
          = size (users_triggering feature (events (replay one_event_one_error)))
          ∧ (adoption_rate stats
             == Q_of_nat (size (users_triggering feature
                                  (events (replay one_event_one_error))))
                / Q_of_nat (size (event_users (events (replay one_event_one_error)))))%Q.
Proof.
  assert (Hne : events (replay one_event_one_error) ≠ []) by (vm_compute; discriminate).
  split; [exact Hne|].
  exact (adoption_rate_over_event_users one_event_one_error Hne).
Defined.

Lemma size_list_to_set_le (l : list string) :
  (size (list_to_set l : gset string) ≤ length l)%nat.
Proof.
  induction l as [|x l IH].
  - rewrite list_to_set_nil, size_empty. done.
  - rewrite list_to_set_cons, size_union_alt, size_singleton. simpl.
    assert (Hsub : (list_to_set l : gset string) ∖ {[x]} ⊆ list_to_set l).
    { intros y [Hy _]%elem_of_difference. exact Hy. }
    apply subseteq_size in Hsub. lia.
Qed.

Lemma users_using_feature_le feature sessions :
  (size (users_using_feature feature sessions) ≤ length sessions)%nat.
Proof.
  etrans; [|etrans; [apply (size_list_to_set_le (Dict.keys sessions))|]].
  - apply subseteq_size. intros u (l & e & Hin & _)%users_using_feature_elem.
    apply elem_of_list_to_set. unfold Dict.keys.
    by apply (list_elem_of_fmap_2 fst) in Hin.
  - unfold Dict.keys. by rewrite length_fmap.
Qed.

(** Every reported rate lies between 0 and 1. *)
Lemma adoption_rate_bounds self n feats ins feature stats :
  Dict.wf (feature_usage self) →
  (analyze_feature_adoption self).1 = Ok (Adoption n feats ins) →
  Dict.get feature feats = Some stats →
  (0 <= adoption_rate stats ∧ adoption_rate stats <= 1)%Q.
Proof.
  intros Hwf. unfold analyze_feature_adoption, mbind, M_bind, attr, mret, M_ret. simpl.
  case_decide as Hz; [done|]. intros [= <- <- <-].
  rewrite (dict_build_get (feature_stats (user_sessions self))) by done.
  destruct (Dict.get feature (feature_usage self)) as [count|]; [|done].
  intros [= <-]. simpl.
  pose proof (users_using_feature_le feature (user_sessions self)) as Hle.
  assert (Hpos : (0 < Q_of_nat (length (user_sessions self)))%Q).
  { unfold Q_of_nat. rewrite <- (Zlt_Qlt 0). lia. }
  unfold Q_of_nat in *. split.
  - apply Qle_shift_div_l; [done|]. rewrite Qmult_0_l, <- (Zle_Qle 0). lia.
  - apply Qle_shift_div_r; [done|]. rewrite Qmult_1_l, <- Zle_Qle. lia.
Qed.

(** C6.  [unique_users ≤ total_uses] fails.  The counter key is what
    [str.replace] leaves of the type, the users are found by the type
    [feature_<key>]; the two disagree when the key itself contains the
    prefix text.  One event counted under the key [feature_], and two users
    with the type [feature_feature_] (itself counted under the empty key),
    give [total_uses = 1] and [unique_users = 2]. *)
Theorem unique_users_exceed_total_uses :
  (analyze_feature_adoption (replay nested_prefix_log)).1
  = Ok (Adoption 2
          [ ("feature_", mkFeatureStats 1 2 (2 # 2) "high_adoption");
            ("", mkFeatureStats 2 0 (0 # 2) "low_adoption") ]
          [ "Low adoption detected for: . "
            +:+ "Consider improving discoverability or user education." ])
  ∧ feature_usage (replay nested_prefix_log) = [("feature_", 1%nat); ("", 2%nat)].
Proof. split; vm_compute; reflexivity. Qed.

(** * Further properties of the analyzer *)

(** ** Severity *)

(** X1.  [_assess_error_severity] is monotone: more occurrences and more
    affected users never give a lower severity. *)
Theorem severity_monotone o u o' u' :
  (o ≤ o')%nat → (u ≤ u')%nat →
  (severity_rank (_assess_error_severity o u)
   ≤ severity_rank (_assess_error_severity o' u'))%nat.
Proof.
  intros Ho Hu. unfold _assess_error_severity.
  repeat match goal with
         | |- context [(?a <? ?b)%nat] => destruct (Nat.ltb_spec a b)
         end; simpl; vm_compute; lia.
Qed.

Lemma severity_monotone_witness :
  (severity_rank (_assess_error_severity 6 1)
   ≤ severity_rank (_assess_error_severity 21 1))%nat.
Proof. apply (severity_monotone 6 1 21 1); lia. Defined.

(** ** The counter key *)

Lemma replace_absent old new s :
  contains old s = false → replace_from old new 0 s = s.
Proof.
  induction s as [|c r IH]; [done|]. simpl.
  intros [Hp Hr]%orb_false_elim. simpl in Hp. rewrite Hp. by rewrite IH.
Qed.

Lemma prefix_append p s : String.prefix p (p +:+ s) = true.
Proof.
  induction p as [|c p IH]; simpl; [by destruct s|].
  by destruct (Ascii.ascii_dec c c).
Qed.

Lemma replace_from_skip old new p s :
  replace_from old new (String.length p) (p +:+ s) = replace_from old new 0 s.
Proof. induction p as [|c p IH]; [reflexivity | exact IH]. Qed.

(** A match at the head of the string is replaced and scanning goes on
    behind it. *)
Lemma replace_from_match c p new s :
  replace_from (String c p) new 0 (String c p +:+ s)
  = new +:+ replace_from (String c p) new 0 s.
Proof.
  transitivity
    (if String.prefix (String c p) (String c p +:+ s)
     then new +:+ replace_from (String c p) new
                    (String.length (String c p) - 1) (p +:+ s)
     else String c (replace_from (String c p) new 0 (p +:+ s))); [reflexivity|].
  rewrite prefix_append. simpl String.length.
  by rewrite Nat.sub_succ, Nat.sub_0_r, replace_from_skip.
Qed.

(** X2.  For a feature name that does not contain the text [feature_], the
    type [feature_<name>] is counted under [<name>]. *)
Theorem feature_key_plain name :
  contains "feature_" name = false →
  feature_key ("feature_" +:+ name) = Some name.
Proof.
  intros Hn. unfold feature_key, startswith, str_replace.
  by rewrite prefix_append, replace_from_match, (replace_absent _ _ _ Hn).
Qed.

Lemma feature_key_plain_witness :
  feature_key ("feature_" +:+ "voice_commands") = Some "voice_commands".
Proof. apply (feature_key_plain "voice_commands"). reflexivity. Defined.

(** ** The engine and the calls that made it *)

Lemma events_of_calls_snoc cs c :
  events_of_calls (cs ++ [c])
  = events_of_calls cs ++ match event_of_call c with Some e => [e] | None => [] end.
Proof. unfold events_of_calls. rewrite omap_app. simpl. by destruct (event_of_call c). Qed.

Lemma errors_of_calls_snoc error_type cs c :
  errors_of_calls error_type (cs ++ [c])
  = errors_of_calls error_type cs
    ++ match error_of_call error_type c with Some e => [e] | None => [] end.
Proof.
  unfold errors_of_calls. rewrite omap_app. simpl.
  by destruct (error_of_call error_type c).
Qed.

Lemma replay_events cs : events (replay cs) = events_of_calls cs.
Proof.
  induction cs as [|c cs IH] using rev_ind; [done|].
  rewrite replay_snoc, events_of_calls_snoc.
  destruct c as [t u md now|t u cx now]; simpl.
  - by rewrite track_event_state, IH.
  - by rewrite IH, app_nil_r.
Qed.

(** X3.  The events list is the log of the [track_event] calls, in call
    order; [track_error] adds nothing to it. *)
Theorem events_are_the_calls cs : events (replay cs) = events_of_calls cs.
Proof. apply replay_events. Qed.

(** X4.  Every user's session is the sub-list of that user's events, in log
    order, and a user without events has no session. *)
Theorem sessions_follow_log cs user_id :
  Dict.get user_id (user_sessions (replay cs))
  = match session_of user_id (events (replay cs)) with
    | [] => None
    | l => Some l
    end.
Proof. apply replay_consistent. Qed.

Lemma uses_of_snoc feature evs e :
  uses_of feature (evs ++ [e])
  = (uses_of feature evs
     + if decide (feature_key (ev_type e) = Some feature) then 1 else 0)%nat.
Proof.
  unfold uses_of. rewrite filter_app, length_app. f_equal.
  rewrite filter_cons, filter_nil. by case_decide.
Qed.

Lemma feature_usage_counts cs feature :
  Dict.get feature (feature_usage (replay cs))
  = if decide (uses_of feature (events (replay cs)) = 0%nat) then None
    else Some (uses_of feature (events (replay cs))).
Proof.
  revert feature. induction cs as [|c cs IH] using rev_ind; intros feature; [done|].
  rewrite replay_snoc. destruct c as [t u md now|t u cx now]; simpl; [|done].
  rewrite track_event_state. simpl. rewrite uses_of_snoc. simpl.
  unfold feature_key. destruct (startswith "feature_" t).
  - unfold dd_incr. rewrite dict_get_set, !IH.
    repeat case_decide; simplify_eq/=; first [done | lia | f_equal; lia].
  - rewrite IH. repeat case_decide; simplify_eq/=; first [done | lia | f_equal; lia].
Qed.

(** X5.  After any sequence of calls, the counter of a feature is the
    number of events in the log whose type starts with [feature_] and
    reduces to that feature under [str.replace]; a feature with no such
    event has no counter. *)
Theorem feature_counter_is_uses cs feature :
  Dict.get feature (feature_usage (replay cs))
  = if decide (uses_of feature (events_of_calls cs) = 0%nat) then None
    else Some (uses_of feature (events_of_calls cs)).
Proof. rewrite <- replay_events. apply feature_usage_counts. Qed.

(** ** Adoption reports *)

Lemma filter_length_mono {A} (P Q : A → Prop)
    `{∀ x, Decision (P x)} `{∀ x, Decision (Q x)} (l : list A) :
  (∀ x, P x → Q x) → (length (filter P l) ≤ length (filter Q l))%nat.
Proof.
  intros HPQ. induction l as [|x l IH]; [done|].
  rewrite !filter_cons. destruct (decide (P x)) as [HP|HP].
  - rewrite decide_True by auto. simpl. lia.
  - destruct (decide (Q x)); simpl; lia.
Qed.

Lemma dict_set_fresh {K V} `{EqDecision K} (k : K) (v : V) d :
  Dict.get k d = None → Dict.set k v d = d ++ [(k, v)].
Proof.
  induction d as [|[k0 v0] d IH]; simpl; [done|].
  case_decide; [done|]. intros Hn. by rewrite IH.
Qed.

(** Filling a dictionary key by key from the items of a well-formed one
    gives the items in the same order, each value replaced by its image. *)
Lemma dict_build_map {K V W} `{EqDecision K} (g : K → V → W) (items : list (K * V)) :
  Dict.wf items →
  foldl (λ acc kv, Dict.set kv.1 (g kv.1 kv.2) acc) [] items
  = (λ kv, (kv.1, g kv.1 kv.2)) <$> items.
Proof.
  induction items as [|[k0 v0] items IH] using rev_ind; [done|].
  unfold Dict.wf, Dict.keys. rewrite fmap_app, NoDup_app. simpl.
  intros (Hwf & Hfresh & _).
  rewrite foldl_app, fmap_app. simpl. rewrite (IH Hwf).
  apply dict_set_fresh, dict_get_None. unfold Dict.keys.
  rewrite <- list_fmap_compose. intros Hin. apply (Hfresh _ Hin). left.
Qed.

Lemma adoption_report_shape self :
  Dict.wf (feature_usage self) →
  user_sessions self ≠ [] →
  analyze_feature_adoption self
  = (let feats := (λ fc, (fc.1, feature_stats (user_sessions self) fc.1 fc.2))
                    <$> feature_usage self in
     (Ok (Adoption (length feats) feats (_generate_adoption_insights feats)), self)).
Proof.
  intros Hwf Hne. unfold analyze_feature_adoption, mbind, M_bind, attr, mret, M_ret.
  simpl. rewrite decide_False by (by destruct (user_sessions self)).
  by rewrite (dict_build_map (feature_stats (user_sessions self))).
Qed.

(** X6.  With at least one user known, the adoption report has one entry
    per feature counter, in the order of the counters, and [total_uses] is
    the counter. *)
Theorem adoption_report_per_counter self :
  Dict.wf (feature_usage self) →
  user_sessions self ≠ [] →
  ∃ feats ins,
    analyze_feature_adoption self
    = (Ok (Adoption (length (feature_usage self)) feats ins), self)
    ∧ feats.*1 = (feature_usage self).*1
    ∧ total_uses <$> feats.*2 = (feature_usage self).*2.
Proof.
  intros Hwf Hne. rewrite (adoption_report_shape _ Hwf Hne). simpl.
  eexists _, _. split; [by rewrite length_fmap|].
  rewrite <- !list_fmap_compose. split; [done|].
  by apply list_fmap_ext.
Qed.

Lemma adoption_report_per_counter_witness :
  ∃ feats ins,
    analyze_feature_adoption (replay two_features_log)
    = (Ok (Adoption (length (feature_usage (replay two_features_log))) feats ins),
       replay two_features_log)
    ∧ feats.*1 = (feature_usage (replay two_features_log)).*1
    ∧ total_uses <$> feats.*2 = (feature_usage (replay two_features_log)).*2.
Proof.
  apply (adoption_report_per_counter (replay two_features_log)).
  - apply (usage_wf _ (replay_consistent two_features_log)).
  - vm_compute. discriminate.
Defined.

(** X7.  For every log and every feature whose own name is what
    [str.replace] leaves of [feature_<name>], the report satisfies
    [unique_users ≤ total_uses]. *)
Theorem unique_users_le_total_uses cs n feats ins feature stats :
  (analyze_feature_adoption (replay cs)).1 = Ok (Adoption n feats ins) →
  Dict.get feature feats = Some stats →
  feature_key ("feature_" +:+ feature) = Some feature →
  (unique_users stats ≤ total_uses stats)%nat.
Proof.
  pose proof (replay_consistent cs) as Hc.
  unfold analyze_feature_adoption, mbind, M_bind, attr, mret, M_ret. simpl.
  case_decide as Hz; [done|]. intros [= <- <- <-].
  rewrite (dict_build_get (feature_stats (user_sessions (replay cs)))) by apply Hc.
  pose proof (feature_usage_counts cs feature) as Hcount.
  destruct (Dict.get feature (feature_usage (replay cs))) as [count|]; [|done].
  intros [= <-] Hkey. simpl.
  rewrite consistent_users_using by done. unfold users_triggering.
  etrans; [apply size_list_to_set_le|]. rewrite length_fmap.
  case_decide; [done|]. injection Hcount as ->. unfold uses_of.
  apply filter_length_mono. by intros e ->.
Qed.

Lemma unique_users_le_total_uses_witness :
  (unique_users (mkFeatureStats 1 1 (1 # 3) "moderate_adoption")
   ≤ total_uses (mkFeatureStats 1 1 (1 # 3) "moderate_adoption"))%nat.
Proof.
  apply (unique_users_le_total_uses two_features_log 2
           [ ("automation", mkFeatureStats 2 2 (2 # 3) "moderate_adoption");
             ("scheduling", mkFeatureStats 1 1 (1 # 3) "moderate_adoption") ] []
           "scheduling" (mkFeatureStats 1 1 (1 # 3) "moderate_adoption"));
    reflexivity.
Defined.

(** X8.  For every log, every reported adoption rate lies between 0 and 1. *)
Theorem adoption_rate_in_unit_interval cs n feats ins feature stats :
  (analyze_feature_adoption (replay cs)).1 = Ok (Adoption n feats ins) →
  Dict.get feature feats = Some stats →
  (0 <= adoption_rate stats ∧ adoption_rate stats <= 1)%Q.
Proof. apply adoption_rate_bounds, replay_consistent. Qed.

Lemma adoption_rate_in_unit_interval_witness :
  (0 <= adoption_rate (mkFeatureStats 1 1 (1 # 3) "moderate_adoption")
   ∧ adoption_rate (mkFeatureStats 1 1 (1 # 3) "moderate_adoption") <= 1)%Q.
Proof.
  apply (adoption_rate_in_unit_interval two_features_log 2
           [ ("automation", mkFeatureStats 2 2 (2 # 3) "moderate_adoption");
             ("scheduling", mkFeatureStats 1 1 (1 # 3) "moderate_adoption") ] []
           "scheduling" (mkFeatureStats 1 1 (1 # 3) "moderate_adoption"));
    reflexivity.
Defined.

(** ** Error reports *)

Lemma error_store_is_calls cs error_type :
  Dict.get error_type (error_patterns (replay cs))
  = match errors_of_calls error_type cs with [] => None | l => Some l end.
Proof.
  induction cs as [|c cs IH] using rev_ind; [done|].
  rewrite replay_snoc, errors_of_calls_snoc.
  destruct c as [t u md now|t u cx now]; simpl.
  - rewrite track_event_state. simpl. by rewrite IH, app_nil_r.
  - unfold dd_append. rewrite dict_get_set.
    case_decide as Ht; [subst t|]; rewrite IH.
    + rewrite decide_True by done. by destruct (errors_of_calls error_type cs).
    + rewrite decide_False by done. by rewrite app_nil_r.
Qed.

Lemma error_report_shape self :
  Dict.wf (error_patterns self) →
  analyze_error_patterns self
  = (let analysis := (λ eo, (eo.1, error_stats eo.2)) <$> error_patterns self in
     (Ok {| total_error_types := length analysis; errors := analysis;
            error_insights := _generate_error_insights analysis |}, self)).
Proof.
  intros Hwf. unfold analyze_error_patterns, mbind, M_bind, attr, mret, M_ret. simpl.
  by rewrite (dict_build_map (λ _ o, error_stats o)).
Qed.

(** X9.  For every log, the error report has an entry for exactly the error
    types passed to [track_error], and [occurrences] is the number of
    [track_error] calls with that type. *)
Theorem error_report_counts_calls cs error_type :
  ∃ r, analyze_error_patterns (replay cs) = (Ok r, replay cs)
    ∧ occurrences <$> Dict.get error_type (errors r)
      = match errors_of_calls error_type cs with
        | [] => None
        | l => Some (length l)
        end.
Proof.
  eexists. split; [reflexivity|]. simpl.
  rewrite (dict_build_get (λ _ o, error_stats o))
    by apply (errors_wf _ (replay_consistent cs)).
  rewrite error_store_is_calls. by destruct (errors_of_calls error_type cs).
Qed.

Lemma frequency_bounds occs :
  occs ≠ [] → (0 < frequency occs ∧ frequency occs <= Q_of_nat (length occs))%Q.
Proof.
  intros Hne. unfold frequency.
  destruct occs as [|o occs]; [done|]. cbn [fmap list_fmap].
  set (days := (total_seconds _ / 86400)%Q).
  assert (Hm : (1 <= py_max days 1)%Q).
  { rewrite py_max_Qmax. apply Q.le_max_r. }
  assert (Hpos : (0 < py_max days 1)%Q) by (eapply Qlt_le_trans; [|exact Hm]; done).
  assert (Hn : (0 < Q_of_nat (length (o :: occs)))%Q).
  { unfold Q_of_nat. rewrite <- (Zlt_Qlt 0). simpl. lia. }
  split.
  - apply Qlt_shift_div_l; [done|]. by rewrite Qmult_0_l.
  - apply Qle_shift_div_r; [done|].
    rewrite <- (Qmult_1_r (Q_of_nat _)) at 1.
    apply Qmult_le_l; done.
Qed.

Lemma replay_errors_nonempty cs e occs :
  (e, occs) ∈ error_patterns (replay cs) → occs ≠ [].
Proof.
  intros Hin%(dict_elem_get _ _ _ (errors_wf _ (replay_consistent cs))).
  rewrite error_store_is_calls in Hin.
  by destruct (errors_of_calls e cs); simplify_eq.
Qed.

Lemma error_report_entry cs r error_type stats :
  (analyze_error_patterns (replay cs)).1 = Ok r →
  Dict.get error_type (errors r) = Some stats →
  ∃ occs, occs ≠ [] ∧ stats = error_stats occs.
Proof.
  rewrite (error_report_shape _ (errors_wf _ (replay_consistent cs))). simpl.
  intros [= <-]. simpl. intros Hget%dict_get_Some_elem.
  apply list_elem_of_fmap in Hget as ([e occs] & [= -> ->] & Hin).
  exists occs. split; [by eapply replay_errors_nonempty | done].
Qed.

(** X10.  For every log, every entry of the error report has at least one
    and at most [occurrences] affected users. *)
Theorem affected_users_bounds cs r error_type stats :
  (analyze_error_patterns (replay cs)).1 = Ok r →
  Dict.get error_type (errors r) = Some stats →
  (1 ≤ affected_users stats ≤ occurrences stats)%nat.
Proof.
  intros Hr Hget.
  destruct (error_report_entry _ _ _ _ Hr Hget) as (occs & Hne & ->). simpl. split.
  - destruct occs as [|o occs]; [done|]. simpl.
    rewrite size_union_alt, size_singleton. lia.
  - etrans; [apply size_list_to_set_le|]. by rewrite length_fmap.
Qed.

Lemma affected_users_bounds_witness :
  ∃ r stats,
    (analyze_error_patterns (replay timeout_burst)).1 = Ok r
    ∧ Dict.get "timeout" (errors r) = Some stats
    ∧ (1 ≤ affected_users stats ≤ occurrences stats)%nat.
Proof.
  eexists _, _. split; [reflexivity|]. split; [reflexivity|].
  eapply (affected_users_bounds timeout_burst) with (error_type := "timeout");
    reflexivity.
Defined.

(** X11.  For every log, the reported frequency per day is positive and
    never larger than the number of occurrences. *)
Theorem frequency_per_day_bounds cs r error_type stats :
  (analyze_error_patterns (replay cs)).1 = Ok r →
  Dict.get error_type (errors r) = Some stats →
  (0 < frequency_per_day stats
   ∧ frequency_per_day stats <= Q_of_nat (occurrences stats))%Q.
Proof.
  intros Hr Hget.
  destruct (error_report_entry _ _ _ _ Hr Hget) as (occs & Hne & ->). simpl.
  by apply frequency_bounds.
Qed.

Lemma frequency_per_day_bounds_witness :
  ∃ r stats,
    (analyze_error_patterns (replay timeout_burst)).1 = Ok r
    ∧ Dict.get "timeout" (errors r) = Some stats
    ∧ (0 < frequency_per_day stats
       ∧ frequency_per_day stats <= Q_of_nat (occurrences stats))%Q.
Proof.
  eexists _, _. split; [reflexivity|]. split; [reflexivity|].
  eapply (frequency_per_day_bounds timeout_burst) with (error_type := "timeout");
    reflexivity.
Defined.

(** X12.  The error report carries its one insight exactly when some error
    type has more than 20 occurrences or more than 5 affected users, that
    is, when some entry is [critical] or [high]. *)
Theorem error_insight_iff self :
  Dict.wf (error_patterns self) →
  ∃ r, analyze_error_patterns self = (Ok r, self)
    ∧ (error_insights r ≠ []
       ↔ ∃ e occs, (e, occs) ∈ error_patterns self
           ∧ (20 < length occs
              ∨ 5 < size (list_to_set (err_user_id <$> occs) : gset string))%nat).
Proof.
  intros Hwf. rewrite (error_report_shape _ Hwf). simpl.
  eexists. split; [reflexivity|]. simpl.
  unfold _generate_error_insights.
  set (crit := (filter _ _).*1).
  assert (Hcrit : crit ≠ [] ↔
    ∃ e occs, (e, occs) ∈ error_patterns self
      ∧ (20 < length occs
         ∨ 5 < size (list_to_set (err_user_id <$> occs) : gset string))%nat).
  { assert (Hsev : ∀ o u,
      (_assess_error_severity o u = "critical" ∨ _assess_error_severity o u = "high")
      ↔ (20 < o ∨ 5 < u)%nat).
    { intros o u. unfold _assess_error_severity.
      repeat match goal with
             | |- context [(?a <? ?b)%nat] => destruct (Nat.ltb_spec a b)
             end; simpl; split; intros; try lia; try (by left); try (by right);
        by destruct_or!. }
    subst crit. split.
    - intros Hne. destruct (filter _ _) as [|[e st] l] eqn:Hf; [done|].
      assert (Hin : (e, st) ∈ filter
        (λ ed : string * ErrorStats,
           severity ed.2 = "critical" ∨ severity ed.2 = "high")
        ((λ eo, (eo.1, error_stats eo.2)) <$> error_patterns self))
        by (rewrite Hf; left).
      apply list_elem_of_filter in Hin as [Hs Hin].
      apply list_elem_of_fmap in Hin as ([e' occs] & [= -> ->] & Hin).
      exists e', occs. split; [done|]. by apply Hsev.
    - intros (e & occs & Hin & Hbig) Hnil.
      assert (Hmem : (e, error_stats occs) ∈ filter
        (λ ed : string * ErrorStats,
           severity ed.2 = "critical" ∨ severity ed.2 = "high")
        ((λ eo, (eo.1, error_stats eo.2)) <$> error_patterns self)).
      { apply list_elem_of_filter. split; [by apply Hsev|].
        apply list_elem_of_fmap. by exists (e, occs). }
      apply (list_elem_of_fmap_2 fst) in Hmem. rewrite Hnil in Hmem.
      by apply elem_of_nil in Hmem. }
  rewrite <- Hcrit. by destruct crit.
Qed.

Lemma error_insight_iff_witness :
  ∃ r, analyze_error_patterns (replay many_timeouts) = (Ok r, replay many_timeouts)
    ∧ error_insights r
      = ["Critical/High severity errors detected: timeout. "
         +:+ "Immediate attention required."].
Proof.
  destruct (error_insight_iff (replay many_timeouts)
              (errors_wf _ (replay_consistent many_timeouts))) as (r & Hr & _).
  exists r. split; [exact Hr|].
  vm_compute in Hr. by injection Hr as <-.
Defined.

(** ** Journeys and the report *)

Lemma short_sessions_no_patterns (sessions : list (string * list Event)) :
  Forall (λ us, length us.2 < 2)%nat sessions →
  foldl (λ jp us, count_transitions jp us.2) [] sessions = [].
Proof.
  induction 1 as [|us sessions Hus _ IH]; [done|]. simpl.
  unfold count_transitions at 2.
  destruct (Nat.ltb_spec (length us.2) 2); [done | lia].
Qed.

Lemma analyze_user_journeys_outcome self :
  analyze_user_journeys self
  = if decide (Exists (λ us, 2 ≤ length us.2)%nat (user_sessions self))
    then (Raise (KeyError "pattern_frequency_threshold"), self)
    else (Ok empty_journey_report, self).
Proof.
  unfold analyze_user_journeys, mbind, M_bind, attr, lift. simpl.
  case_decide as Hex.
  - set (jp := foldl _ [] (user_sessions self)).
    assert (Hjp : jp ≠ []).
    { apply journey_patterns_nonempty. right. by apply Exists_exists. }
    assert (Hs : (0 < length (sorted_desc jp))%nat).
    { rewrite sorted_desc_length. destruct jp; [done | simpl; lia]. }
    destruct (sorted_desc jp) as [|pc ps]; [simpl in Hs; lia|].
    simpl. by rewrite journey_insights_raise.
  - rewrite short_sessions_no_patterns; [done|].
    apply not_Exists_Forall in Hex; [|apply _].
    eapply Forall_impl; [exact Hex|]. intros us Hus. simpl in Hus. lia.
Qed.

(** X13.  [analyze_user_journeys] returns a report exactly when no user has
    two events, and the only report it ever returns is the empty one. *)
Theorem journeys_report_is_empty self :
  ((analyze_user_journeys self).1 = Ok empty_journey_report
   ↔ Forall (λ us, length us.2 < 2)%nat (user_sessions self))
  ∧ (∀ r, (analyze_user_journeys self).1 = Ok r → r = empty_journey_report).
Proof.
  rewrite analyze_user_journeys_outcome. case_decide as Hex; simpl.
  - split; [|done]. split; [done|]. intros Hall.
    apply Exists_exists in Hex as (us & Hin & Hlen).
    rewrite Forall_forall in Hall. specialize (Hall _ Hin). lia.
  - split; [|by intros r [= <-]]. split; [|done]. intros _.
    apply not_Exists_Forall in Hex; [|apply _].
    eapply Forall_impl; [exact Hex|]. intros us Hus. simpl in Hus. lia.
Qed.

Lemma analyze_feature_adoption_returns self :
  ∃ r, analyze_feature_adoption self = (Ok r, self).
Proof.
  unfold analyze_feature_adoption, mbind, M_bind, attr, mret, M_ret. simpl.
  case_decide; eexists; reflexivity.
Qed.

(** X14.  [generate_comprehensive_report] fails with the same [KeyError] as
    [analyze_user_journeys] as soon as some user has two events, and
    returns its text when no user has. *)
Theorem report_outcome strftime_seconds format_percent now self :
  (Exists (λ us, 2 ≤ length us.2)%nat (user_sessions self) →
   generate_comprehensive_report strftime_seconds format_percent now self
   = (Raise (KeyError "pattern_frequency_threshold"), self))
  ∧ (Forall (λ us, length us.2 < 2)%nat (user_sessions self) →
     ∃ text,
       generate_comprehensive_report strftime_seconds format_percent now self
       = (Ok text, self)).
Proof.
  destruct (analyze_feature_adoption_returns self) as [adoption Ha].
  pose proof (analyze_user_journeys_outcome self) as Hj.
  unfold generate_comprehensive_report, mbind, M_bind, attr, mret, M_ret.
  cbn beta iota. rewrite Ha. cbn beta iota. rewrite Hj.
  split.
  - intros Hex. by rewrite decide_True.
  - intros Hall. rewrite decide_False.
    + eexists. reflexivity.
    + intros (us & Hin & Hlen)%Exists_exists.
      rewrite Forall_forall in Hall. specialize (Hall _ Hin). lia.
Qed.

(** ** Sums of counters *)

Lemma sum_counts_dd_incr {K} `{EqDecision K} (k : K) d :
  sum_counts (dd_incr k d) = S (sum_counts d).
Proof.
  unfold dd_incr, sum_counts. induction d as [|[k0 v0] d IH]; [done|]. csimpl.
  case_decide; csimpl; [lia|]. rewrite IH. lia.
Qed.

Lemma bucket_counts_sum {K} `{EqDecision K} (key : Event → K) evs :
  sum_counts (bucket_counts key evs) = length evs.
Proof.
  induction evs as [|e evs IH] using rev_ind; [done|].
  rewrite bucket_counts_snoc, sum_counts_dd_incr, IH, length_app. simpl. lia.
Qed.

Lemma bucket_entry {K} `{EqDecision K} (key : Event → K) evs k n :
  (k, n) ∈ bucket_counts key evs → (1 ≤ n)%nat ∧ ∃ e, e ∈ evs ∧ key e = k.
Proof.
  destruct (bucket_counts_spec key evs) as (Hwf & Hget & _).
  intros Hin%(dict_elem_get _ _ _ Hwf). rewrite Hget in Hin.
  case_decide as Hz; [done|]. injection Hin as <-. split; [lia|].
  unfold bucket_size in Hz.
  destruct (filter _ evs) as [|e l] eqn:Hf; [done|].
  assert (He : e ∈ filter (λ e, key e = k) evs) by (rewrite Hf; left).
  apply list_elem_of_filter in He as [? ?]. by exists e.
Qed.

Lemma hour_range t : (0 ≤ hour t < 24)%Z.
Proof. unfold hour. apply Z.mod_pos_bound. lia. Qed.

Lemma weekday_name_range t : weekday_name t ∈ weekday_names.
Proof.
  unfold weekday_name.
  pose proof (Z.mod_pos_bound (calendar_day t + 3) 7 ltac:(lia)) as Hd.
  destruct ((calendar_day t + 3) `mod` 7)%Z as [|p|p]; [| |lia].
  - by left.
  - do 3 (try (destruct p as [p|p|]); try lia);
      unfold weekday_names; rewrite !elem_of_cons; tauto.
Qed.

Lemma bucket_count_le {K} `{EqDecision K} (key : Event → K) evs (range : list K) :
  (∀ e, key e ∈ range) → (length (bucket_counts key evs) ≤ length range)%nat.
Proof.
  intros Hrange. destruct (bucket_counts_spec key evs) as (Hwf & _ & _).
  rewrite <- (length_fmap fst (bucket_counts key evs)).
  apply submseteq_length, NoDup_submseteq; [exact Hwf|].
  intros k ([k' n] & -> & Hin)%list_elem_of_fmap.
  apply bucket_entry in Hin as (_ & e & _ & <-). apply Hrange.
Qed.

(** X15.  In the time report the hourly counts add up to the number of
    events, and so do the daily counts; every hour bucket is an hour from 0
    to 23 with at least one event; there are at most 24 hour buckets and at
    most 7 day buckets. *)
Theorem time_distribution_totals self :
  ∃ r, analyze_time_patterns self = (Ok r, self)
    ∧ sum_counts (hourly_distribution r) = length (events self)
    ∧ sum_counts (daily_distribution r) = length (events self)
    ∧ (∀ h n, (h, n) ∈ hourly_distribution r → (0 ≤ h < 24)%Z ∧ (1 ≤ n)%nat)
    ∧ (∀ d n, (d, n) ∈ daily_distribution r → d ∈ weekday_names ∧ (1 ≤ n)%nat)
    ∧ (length (hourly_distribution r) ≤ 24)%nat
    ∧ (length (daily_distribution r) ≤ 7)%nat.
Proof.
  eexists. split; [reflexivity|]. simpl. split_and!.
  - apply bucket_counts_sum.
  - apply bucket_counts_sum.
  - intros h n (Hn & e & _ & <-)%bucket_entry. split; [apply hour_range | done].
  - intros d n (Hn & e & _ & <-)%bucket_entry. split; [apply weekday_name_range | done].
  - apply (bucket_count_le event_hour _ (seqZ 0 24)).
    intros e. apply elem_of_seqZ. pose proof (hour_range (ev_timestamp e)).
    unfold event_hour. lia.
  - apply (bucket_count_le event_weekday _ weekday_names).
    intros e. apply weekday_name_range.
Qed.

(** ** Ingestion and the analyzers *)

(** X16.  Tracking an error changes neither the adoption report, nor the
    journey outcome, nor the time report; tracking an event does not change
    the error report. *)
Theorem ingestion_independence self t u md now :
  (analyze_feature_adoption (track_error t u md now self).2).1
  = (analyze_feature_adoption self).1
  ∧ (analyze_user_journeys (track_error t u md now self).2).1
    = (analyze_user_journeys self).1
  ∧ (analyze_time_patterns (track_error t u md now self).2).1
    = (analyze_time_patterns self).1
  ∧ (analyze_error_patterns (track_event t u md now self).2).1
    = (analyze_error_patterns self).1.
Proof.
  split_and!.
  - unfold track_error, update, analyze_feature_adoption, mbind, M_bind, attr. simpl.
    by case_decide.
  - unfold track_error, update, analyze_user_journeys, mbind, M_bind, attr, lift. simpl.
    by destruct (_generate_journey_insights _).
  - done.
  - by rewrite track_event_state.
Qed.

(** ** Counting transitions *)

Lemma count_steps_sum (evs : list Event) idx jp :
  Forall (λ i, i + 1 < length evs)%nat idx →
  sum_counts
    (foldl (λ jp i,
              match evs !! i, evs !! (i + 1)%nat with
              | Some a, Some b => dd_incr (ev_type a +:+ " -> " +:+ ev_type b) jp
              | _, _ => jp
              end) jp idx)
  = (sum_counts jp + length idx)%nat.
Proof.
  intros Hidx. revert jp. induction Hidx as [|i idx Hi _ IH]; intros jp; simpl.
  - lia.
  - destruct (lookup_lt_is_Some_2 evs i ltac:(lia)) as [a ->].
    destruct (lookup_lt_is_Some_2 evs (i + 1) Hi) as [b ->].
    rewrite IH, sum_counts_dd_incr. lia.
Qed.

Lemma count_transitions_sum jp evs :
  sum_counts (count_transitions jp evs) = (sum_counts jp + (length evs - 1))%nat.
Proof.
  unfold count_transitions. destruct (Nat.ltb_spec (length evs) 2); [lia|].
  rewrite count_steps_sum; [by rewrite length_seq|].
  apply Forall_forall. intros i Hi%elem_of_seq. lia.
Qed.

(** X17.  The transition counters built by [analyze_user_journeys] add up
    to the number of adjacent pairs of events: a session of n events
    contributes n - 1, a session with fewer than two events nothing. *)
Theorem journey_counts_total (sessions : list (string * list Event)) :
  sum_counts (foldl (λ jp us, count_transitions jp us.2) [] sessions)
  = sum_list_with (λ us, length us.2 - 1)%nat sessions.
Proof.
  cut (∀ jp, sum_counts (foldl (λ jp us, count_transitions jp us.2) jp sessions)
             = (sum_counts jp + sum_list_with (λ us, length us.2 - 1) sessions)%nat).
  { intros H. by rewrite H. }
  induction sessions as [|us sessions IH]; intros jp; simpl; [lia|].
  rewrite IH, count_transitions_sum. lia.
Qed.

(** * Properties of the recommendation engine *)

Lemma insert_reverse_perm {A} (lt : A → A → bool) x l :
  insert_reverse lt x l ≡ₚ x :: l.
Proof.
  induction l as [|y l IH]; simpl; [done|].
  destruct (lt x y); [|done]. rewrite IH. apply Permutation_swap.
Qed.

Lemma sort_reverse_perm {A} (lt : A → A → bool) l : sort_reverse lt l ≡ₚ l.
Proof.
  unfold sort_reverse. induction l as [|x l IH]; simpl; [done|].
  by rewrite insert_reverse_perm, IH.
Qed.

Section RecommendFacts.
Context {F : Type} (fadd : F → F → F) (flt : F → F → bool) (lit : Q → F).
Context (str_title : string → string) (format_2f : F → string).

Local Abbreviation generate_recommendations :=
  (Recommend.generate_recommendations F fadd flt lit str_title).
Local Abbreviation generate_recommendation_report :=
  (Recommend.generate_recommendation_report F fadd flt lit str_title format_2f).
Local Abbreviation _generate_optimization_recommendations :=
  (Recommend._generate_optimization_recommendations F lit str_title).
Local Abbreviation _create_recommendation :=
  (Recommend._create_recommendation F fadd flt lit str_title).

Lemma optimization_raise (profile : Recommend.UserProfile) :
  Recommend.feature_adoption profile ≠ [] →
  _generate_optimization_recommendations profile
  = Raise (KeyError "frequent_usage_threshold").
Proof.
  unfold Recommend._generate_optimization_recommendations.
  destruct (Recommend.feature_adoption profile) as [|fc l]; [done|]. intros _. simpl.
  change (subscript SUGGESTION_THRESHOLDS "frequent_usage_threshold")
    with (@Raise Q (KeyError "frequent_usage_threshold")).
  simpl. induction l as [|x l IH]; simpl; done.
Qed.

Lemma optimization_none (profile : Recommend.UserProfile) :
  Recommend.feature_adoption profile = [] →
  _generate_optimization_recommendations profile = Ok [].
Proof.
  unfold Recommend._generate_optimization_recommendations. by intros ->.
Qed.

Lemma recommendations_raise uid self profile :
  Dict.get uid (Recommend.user_profiles self) = Some profile →
  Recommend.feature_adoption profile ≠ [] →
  generate_recommendations uid self = Raise (KeyError "frequent_usage_threshold").
Proof.
  intros Hget Hne. unfold Recommend.generate_recommendations.
  by rewrite Hget, optimization_raise.
Qed.

(** X18.  [SUGGESTION_THRESHOLDS] has no entry [frequent_usage_threshold]:
    for a known user with any recorded feature usage,
    [generate_recommendations] and [generate_recommendation_report] raise
    [KeyError]. *)
Theorem recommendations_fail_after_usage uid self profile :
  Dict.get uid (Recommend.user_profiles self) = Some profile →
  Recommend.feature_adoption profile ≠ [] →
  generate_recommendations uid self = Raise (KeyError "frequent_usage_threshold")
  ∧ generate_recommendation_report uid self
    = Raise (KeyError "frequent_usage_threshold").
Proof.
  intros Hget Hne. unfold Recommend.generate_recommendation_report.
  by rewrite (recommendations_raise _ _ _ Hget Hne).
Qed.

Lemma unused_feature_elem profile catalog r :
  r ∈ Recommend.unused_feature_recommendations F fadd flt lit str_title profile catalog →
  ∃ name info, (name, info) ∈ catalog
    ∧ Dict.get name (Recommend.feature_adoption profile) = None
    ∧ Recommend._is_feature_appropriate profile info = true
    ∧ r = _create_recommendation name info profile.
Proof.
  unfold Recommend.unused_feature_recommendations.
  cut (∀ acc,
    r ∈ foldl (λ recommendations fi,
                 match Dict.get fi.1 (Recommend.feature_adoption profile) with
                 | Some _ => recommendations
                 | None =>
                     if Recommend._is_feature_appropriate profile fi.2
                     then recommendations ++ [_create_recommendation fi.1 fi.2 profile]
                     else recommendations
                 end) acc catalog →
    r ∈ acc ∨ ∃ name info, (name, info) ∈ catalog
      ∧ Dict.get name (Recommend.feature_adoption profile) = None
      ∧ Recommend._is_feature_appropriate profile info = true
      ∧ r = _create_recommendation name info profile).
  { intros H Hr. destruct (H [] Hr) as [Hnil|?]; [by apply elem_of_nil in Hnil | done]. }
  induction catalog as [|[name info] catalog IH]; intros acc; simpl; [by left|].
  intros [Hacc|(n & i & Hin & Hrest)]%IH.
  - destruct (Dict.get name _) eqn:Hg; [by left|].
    destruct (Recommend._is_feature_appropriate profile info) eqn:Happ; [|by left].
    apply elem_of_app in Hacc as [?|Heq%list_elem_of_singleton]; [by left|].
    right. exists name, info. split_and!; [left | done..].
  - right. exists n, i. split; [by right | done].
Qed.

(** X19.  For a known user without recorded feature usage
    [generate_recommendations] returns at most ten recommendations, each of
    them either built from a catalog feature that suits the user's level or
    one of the advanced recommendations. *)
Theorem recommendations_for_fresh_profile uid self profile :
  Dict.get uid (Recommend.user_profiles self) = Some profile →
  Recommend.feature_adoption profile = [] →
  ∃ recs,
    generate_recommendations uid self = Ok recs
    ∧ (length recs ≤ 10)%nat
    ∧ ∀ r, r ∈ recs →
        (∃ name info, (name, info) ∈ Recommend.feature_catalog self
           ∧ Recommend._is_feature_appropriate profile info = true
           ∧ r = _create_recommendation name info profile)
        ∨ (Recommend.experience_level profile = "advanced"
           ∧ r ∈ Recommend._generate_advanced_recommendations F lit profile).
Proof.
  intros Hget Hnone. unfold Recommend.generate_recommendations.
  rewrite Hget, (optimization_none _ Hnone).
  eexists. split; [reflexivity|]. split.
  - rewrite length_take. lia.
  - intros r Hr%subseteq_take. rewrite sort_reverse_perm, app_nil_r in Hr.
    case_decide as Hadv.
    + apply elem_of_app in Hr as [Hr|Hr]; [left|by right].
      apply unused_feature_elem in Hr as (n & i & Hin & _ & Happ & Hcr). by exists n, i.
    + left. apply unused_feature_elem in Hr as (n & i & Hin & _ & Happ & Hcr).
      by exists n, i.
Qed.

(** X20.  [update_feature_usage] does nothing for an unknown user; for a
    known user it adds one to the count of that feature and leaves the
    user's other counts, the other users and the catalog as they were. *)
Theorem update_feature_usage_effect uid feature now self :
  match Dict.get uid (Recommend.user_profiles self) with
  | None => Recommend.update_feature_usage uid feature now self = self
  | Some profile =>
      let self' := Recommend.update_feature_usage uid feature now self in
      Recommend.feature_catalog self' = Recommend.feature_catalog self
      ∧ (∀ other, other ≠ uid →
           Dict.get other (Recommend.user_profiles self')
           = Dict.get other (Recommend.user_profiles self))
      ∧ ∃ profile',
          Dict.get uid (Recommend.user_profiles self') = Some profile'
          ∧ Dict.get feature (Recommend.feature_adoption profile')
            = Some (S (default 0%nat
                         (Dict.get feature (Recommend.feature_adoption profile))))
          ∧ (∀ f, f ≠ feature →
               Dict.get f (Recommend.feature_adoption profile')
               = Dict.get f (Recommend.feature_adoption profile))
          ∧ Recommend.experience_level profile' = Recommend.experience_level profile
          ∧ Recommend.primary_use_cases profile' = Recommend.primary_use_cases profile
  end.
Proof.
  unfold Recommend.update_feature_usage.
  destruct (Dict.get uid (Recommend.user_profiles self)) as [profile|] eqn:Hget; [|done].
  simpl. split; [done|]. split.
  - intros other Hne. rewrite dict_get_set. by rewrite decide_False.
  - eexists. split; [rewrite dict_get_set; by rewrite decide_True|]. simpl.
    split_and!; [|intros f Hf|done|done]; rewrite dict_get_set.
    + rewrite decide_True by done. f_equal. lia.
    + by rewrite decide_False.
Qed.

(** X21.  Once [update_feature_usage] has recorded a usage for a known
    user, [generate_recommendations] raises [KeyError] for that user. *)
Theorem recommendations_fail_after_update uid feature now self :
  is_Some (Dict.get uid (Recommend.user_profiles self)) →
  generate_recommendations uid (Recommend.update_feature_usage uid feature now self)
  = Raise (KeyError "frequent_usage_threshold").
Proof.
  intros [profile Hget]. unfold Recommend.update_feature_usage. rewrite Hget.
  eapply recommendations_raise.
  - simpl. rewrite dict_get_set. by rewrite decide_True.
  - simpl. apply dict_set_nonempty.
Qed.

(** X22.  [create_user_profile] stores a profile without feature usage under
    the user id, replacing any profile, and its usage, that was there;
    right afterwards [generate_recommendations] returns for that user. *)
Theorem create_user_profile_resets uid level use_cases now self :
  let '(profile, self') := Recommend.create_user_profile uid level use_cases now self in
  Dict.get uid (Recommend.user_profiles self') = Some profile
  ∧ Recommend.feature_adoption profile = []
  ∧ (∀ other, other ≠ uid →
       Dict.get other (Recommend.user_profiles self')
       = Dict.get other (Recommend.user_profiles self))
  ∧ ∃ recs, generate_recommendations uid self' = Ok recs.
Proof.
  simpl. split_and!.
  - rewrite dict_get_set. by rewrite decide_True.
  - done.
  - intros other Hne. rewrite dict_get_set. by rewrite decide_False.
  - unfold Recommend.generate_recommendations. simpl.
    rewrite dict_get_set, decide_True by done.
    rewrite optimization_none by done. eexists. reflexivity.
Qed.
End RecommendFacts.

(** X23.  A feature is withheld from a user exactly when it is [advanced]
    and the user's level is neither [intermediate] nor [advanced] (a
    beginner, or a level the engine does not know). *)
Theorem feature_inappropriate_iff profile info :
  Recommend._is_feature_appropriate profile info = false
  ↔ Recommend.info_difficulty info = "advanced"
    ∧ Recommend.experience_level profile ≠ "intermediate"
    ∧ Recommend.experience_level profile ≠ "advanced".
Proof.
  unfold Recommend._is_feature_appropriate, Recommend.difficulty_level. simpl.
  repeat case_decide; simpl;
    (split; [intros ?; try done; split_and!; congruence
            |intros (? & ? & ?); try done; congruence]).
Qed.

Lemma recommendations_fail_after_usage_witness :
  exact_recommendations "user456" power_user_engine
  = Raise (KeyError "frequent_usage_threshold")
  ∧ exact_report "user456" power_user_engine
    = Raise (KeyError "frequent_usage_threshold").
Proof.
  apply (recommendations_fail_after_usage Qplus Qlt_bool (λ q, q) (λ s, s) (λ _, "")
           "user456" power_user_engine
           (Recommend.mkUserProfile "user456" "advanced" ["automation"; "integration"]
              [("workflow_automation", 1%nat)] 1)).
  - reflexivity.
  - discriminate.
Defined.

Lemma recommendations_for_fresh_profile_witness :
  ∃ recs, exact_recommendations "user123" beginner_engine = Ok recs
    ∧ (length recs ≤ 10)%nat.
Proof.
  destruct (recommendations_for_fresh_profile Qplus Qlt_bool (λ q, q) (λ s, s)
              "user123" beginner_engine
              (Recommend.mkUserProfile "user123" "beginner"
                 ["task_management"; "email"] [] 0) eq_refl eq_refl)
    as (recs & Hrecs & Hlen & _).
  by exists recs.
Defined.

Lemma recommendations_fail_after_update_witness :
  exact_recommendations "user123"
    (Recommend.update_feature_usage "user123" "voice_commands" 7 beginner_engine)
  = Raise (KeyError "frequent_usage_threshold").
Proof.
  apply (recommendations_fail_after_update Qplus Qlt_bool (λ q, q) (λ s, s)
           "user123" "voice_commands" 7 beginner_engine).
  eexists. reflexivity.
Defined.

Lemma relevance_fold_lower (category : string) (use_cases : list string) (s0 s : Q) :
  (s0 <= s)%Q →
  (s0 <= foldl (λ score use_case,
                  if decide (use_case = category)
                  then (score + (2 # 10))%Q else score) s use_cases)%Q.
Proof.
  revert s. induction use_cases as [|u l IH]; intros s Hs; simpl; [done|].
  apply IH. case_decide; lra.
Qed.

(** X24.  In exact arithmetic the relevance score of a recommendation lies
    between 0.5 and 1. *)
Theorem relevance_bounds feature_name info profile :
  let r := Recommend._calculate_relevance Q Qplus Qlt_bool (λ q, q)
             feature_name info profile in
  (5 # 10 <= r ∧ r <= 1)%Q.
Proof.
  unfold Recommend._calculate_relevance, Recommend.fmin. simpl.
  set (s1 := foldl _ _ _).
  assert (H1 : (5 # 10 <= s1)%Q) by (apply relevance_fold_lower; lra).
  set (s2 := if decide _ then _ else s1).
  assert (H2 : (5 # 10 <= s2)%Q) by (subst s2; case_decide; lra).
  set (s3 := if (_ <? _)%nat then _ else s2).
  assert (H3 : (5 # 10 <= s3)%Q) by (subst s3; destruct (_ <? _)%nat; lra).
  unfold Qlt_bool. destruct (Qle_bool s3 1) eqn:Hle; simpl.
  - apply Qle_bool_iff in Hle. lra.
  - lra.
Qed.

(** * Properties of the suggestion engine *)

Section SortFacts.
Context {A : Type} (lt : A → A → bool).
Hypothesis lt_asym : ∀ x y, lt x y = true → lt y x = false.
Hypothesis ge_trans : ∀ x y z, lt x y = false → lt y z = false → lt x z = false.

Lemma insert_reverse_sorted x l :
  StronglySorted (λ a b, lt a b = false) l →
  StronglySorted (λ a b, lt a b = false) (insert_reverse lt x l).
Proof using lt_asym ge_trans.
  induction 1 as [|y l Hl IH Hy]; simpl; [repeat constructor|].
  destruct (lt x y) eqn:Hxy.
  - constructor; [done|].
    rewrite (insert_reverse_perm lt x l). constructor; [by apply lt_asym | done].
  - constructor; [by constructor|]. constructor; [done|].
    eapply Forall_impl; [exact Hy|]. intros z Hz. by eapply ge_trans.
Qed.

Lemma sort_reverse_sorted l :
  StronglySorted (λ a b, lt a b = false) (sort_reverse lt l).
Proof using lt_asym ge_trans.
  unfold sort_reverse. induction l as [|x l IH]; simpl; [constructor|].
  by apply insert_reverse_sorted.
Qed.
End SortFacts.

Section SuggestFacts.
Context (clock : nat → datetime) (format_number : Q → string).
Context (str_title : string → string).

Local Abbreviation _analyze_operation_frequency :=
  (Suggest._analyze_operation_frequency clock).
Local Abbreviation _analyze_user_feedback := (Suggest._analyze_user_feedback clock).
Local Abbreviation analyze_usage_patterns :=
  (Suggest.analyze_usage_patterns clock format_number).
Local Abbreviation detect_capability_gaps :=
  (Suggest.detect_capability_gaps clock str_title).

Lemma count_by_snoc key dflt items item :
  Suggest.count_by key dflt (items ++ [item])
  = dd_incr (default dflt (Dict.get key item)) (Suggest.count_by key dflt items).
Proof. unfold Suggest.count_by. by rewrite foldl_app. Qed.

Lemma count_by_nonempty key dflt items :
  items ≠ [] → Suggest.count_by key dflt items ≠ [].
Proof.
  destruct items as [|item items _] using rev_ind; [done|]. intros _.
  rewrite count_by_snoc. apply dd_incr_nonempty.
Qed.

Lemma count_by_sum key dflt items :
  sum_counts (Suggest.count_by key dflt items) = length items.
Proof.
  induction items as [|item items IH] using rev_ind; [done|].
  rewrite count_by_snoc, sum_counts_dd_incr, IH, length_app. simpl. lia.
Qed.

Lemma count_by_le key dflt items k n :
  (k, n) ∈ Suggest.count_by key dflt items → (n ≤ length items)%nat.
Proof.
  intros Hin. rewrite <- (count_by_sum key dflt items). unfold sum_counts.
  apply (list_elem_of_fmap_2 snd) in Hin. simpl in Hin.
  apply (sum_list_with_in _ id) in Hin. exact Hin.
Qed.

Lemma feedback_run feedback w :
  _analyze_user_feedback feedback w
  = (match feedback with
     | [] => Ok ()
     | _ => Raise (KeyError "user_feedback_threshold")
     end, w).
Proof.
  unfold Suggest._analyze_user_feedback.
  destruct feedback as [|item feedback]; [done|].
  pose proof (count_by_nonempty "category" "general" (item :: feedback)
                ltac:(done)) as Hne.
  destruct (Suggest.count_by _ _ _) as [|cc counts]; [done|].
  reflexivity.
Qed.

(** X25.  [SUGGESTION_THRESHOLDS] has no entry [user_feedback_threshold]:
    [_analyze_user_feedback] raises [KeyError] for every non-empty feedback
    list and changes nothing; for the empty list it returns. *)
Theorem feedback_analysis_outcome feedback w :
  _analyze_user_feedback feedback w
  = (match feedback with
     | [] => Ok ()
     | _ => Raise (KeyError "user_feedback_threshold")
     end, w).
Proof. apply feedback_run. Qed.

Lemma operation_loop counts w :
  ∃ w',
    Suggest.for_each counts (λ oc,
      threshold ← Suggest.lift (subscript SUGGESTION_THRESHOLDS "feature_usage_high");
      if Qgt_bool (Q_of_nat oc.2) threshold then
        s ← Suggest.new_suggestion clock
               ("Optimize " +:+ oc.1 +:+ " operation")
               ("The " +:+ oc.1 +:+ " operation is used frequently (" +:+ pretty oc.2
                +:+ " times). "
                +:+ "Consider caching or batch processing to improve performance.")
               Suggest.PERFORMANCE_OPTIMIZATION Suggest.HIGH 8 "Medium"
               ("High frequency usage (" +:+ pretty oc.2
                +:+ " operations) indicates optimization opportunity");
        Suggest.extend_suggestions [s]
      else mret ()) w = (Ok (), w')
    ∧ grows w w'
    ∧ length (Suggest.suggestions (Suggest.engine w'))
      = (length (Suggest.suggestions (Suggest.engine w))
         + length (filter (λ oc, 100 < oc.2)%nat counts))%nat.
Proof.
  revert w. induction counts as [|oc counts IH]; intros w.
  { exists w. split; [done|]. split; [done|]. simpl. lia. }
  cbn [Suggest.for_each]. unfold mbind at 1, Suggest.ST_bind at 1.
  unfold mbind at 1, Suggest.ST_bind at 1, Suggest.lift at 1.
  change (subscript SUGGESTION_THRESHOLDS "feature_usage_high") with (Ok 100%Q).
  cbn beta iota. rewrite filter_cons.
  assert (Hcmp : Qgt_bool (Q_of_nat oc.2) 100 = bool_decide (100 < oc.2)%nat).
  { unfold Qgt_bool, Qlt_bool, Q_of_nat.
    destruct (Qle_bool (inject_Z (Z.of_nat oc.2)) 100) eqn:Hle; simpl.
    - apply Qle_bool_iff in Hle. rewrite <- (Zle_Qle _ 100) in Hle.
      symmetry. apply bool_decide_eq_false. lia.
    - symmetry. apply bool_decide_eq_true.
      destruct (decide (100 < oc.2)%nat) as [|Hn]; [done|].
      assert (Hq : Qle_bool (inject_Z (Z.of_nat oc.2)) 100 = true).
      { apply Qle_bool_iff. rewrite <- (Zle_Qle _ 100). lia. }
      congruence. }
  rewrite Hcmp. destruct (decide (100 < oc.2)%nat) as [Hbig|Hsmall].
  - rewrite bool_decide_eq_true_2 by done.
    unfold mbind, Suggest.ST_bind, Suggest.new_suggestion, Suggest.extend_suggestions.
    cbn beta iota.
    match goal with
    | |- ∃ w', Suggest.for_each _ _ ?w0 = _ ∧ _ => destruct (IH w0) as (w' & Hrun & Hg & Hlen)
    end.
    exists w'. split; [exact Hrun|]. destruct Hg as (Hu & Hp & Hr). simpl in *.
    split.
    + split_and!; [done| |lia].
      etrans; [|exact Hp]. by apply prefix_app_r.
    + rewrite Hlen, length_app. simpl. lia.
  - rewrite bool_decide_eq_false_2 by done.
    unfold mret at 1, Suggest.ST_ret at 1. cbn beta iota.
    destruct (IH w) as (w' & Hrun & Hg & Hlen).
    exists w'. split; [exact Hrun|]. split; [done|]. rewrite Hlen. lia.
Qed.

(** X26.  [_analyze_operation_frequency] never raises; it keeps the
    suggestions it finds and appends one for every operation type that
    occurs more than 100 times, so none when there are at most 100
    operations. *)
Theorem operation_analysis_outcome operations w :
  ∃ w',
    _analyze_operation_frequency operations w = (Ok (), w')
    ∧ grows w w'
    ∧ length (Suggest.suggestions (Suggest.engine w'))
      = (length (Suggest.suggestions (Suggest.engine w))
         + length (filter (λ oc, 100 < oc.2)%nat
                     (Suggest.count_by "type" "unknown" operations)))%nat
    ∧ ((length operations ≤ 100)%nat →
       Suggest.suggestions (Suggest.engine w') = Suggest.suggestions (Suggest.engine w)).
Proof.
  unfold Suggest._analyze_operation_frequency.
  destruct (operation_loop (Suggest.count_by "type" "unknown" operations) w)
    as (w' & Hrun & Hg & Hlen).
  exists w'. split; [exact Hrun|]. split; [done|]. split; [done|].
  intros Hfew.
  assert (Hnone : filter (λ oc : string * nat, (100 < oc.2)%nat)
                    (Suggest.count_by "type" "unknown" operations) = []).
  { destruct (filter _ _) as [|[k n] l] eqn:Hf; [done|].
    assert (Hin : (k, n) ∈ filter (λ oc : string * nat, (100 < oc.2)%nat)
                    (Suggest.count_by "type" "unknown" operations))
      by (rewrite Hf; left).
    apply list_elem_of_filter in Hin as [Hbig Hin%count_by_le]. simpl in Hbig. lia. }
  rewrite Hnone in Hlen. simpl in Hlen. destruct Hg as (_ & Hp & _).
  symmetry. apply prefix_length_eq; [done | lia].
Qed.
Lemma grows_refl w : grows w w.
Proof. by split_and!. Qed.

Lemma grows_trans w1 w2 w3 : grows w1 w2 → grows w2 w3 → grows w1 w3.
Proof.
  intros (Hu1 & Hp1 & Hr1) (Hu2 & Hp2 & Hr2).
  split_and!; [congruence | by etrans | lia].
Qed.

Lemma performance_analysis_runs metrics w :
  ∃ w', Suggest._analyze_performance_metrics clock format_number metrics w = (Ok (), w')
    ∧ grows w w'.
Proof.
  unfold Suggest._analyze_performance_metrics.
  destruct (Suggest.response_times metrics) as [times|];
    [|exists w; split; [done|apply grows_refl]].
  unfold mbind, Suggest.ST_bind, Suggest.lift.
  change (subscript SUGGESTION_THRESHOLDS "response_time_warning") with (Ok 1000%Q).
  cbn beta iota. destruct (Qgt_bool _ _).
  - unfold Suggest.new_suggestion, Suggest.extend_suggestions. cbn beta iota.
    eexists. split; [reflexivity|].
    split_and!; simpl; [done | by apply prefix_app_r | lia].
  - exists w. split; [done | apply grows_refl].
Qed.

Lemma operations_step data w0 :
  ∃ w1,
    match Suggest.operations data with
    | Some ops => _analyze_operation_frequency ops
    | None => mret ()
    end w0 = (Ok (), w1)
    ∧ grows w0 w1
    ∧ length (Suggest.suggestions (Suggest.engine w1))
      = (length (Suggest.suggestions (Suggest.engine w0))
         + length (filter (λ oc, 100 < oc.2)%nat
                     (Suggest.count_by "type" "unknown"
                        (default [] (Suggest.operations data)))))%nat.
Proof.
  destruct (Suggest.operations data) as [ops|]; simpl.
  - apply operation_loop.
  - exists w0. split; [done|]. split; [apply grows_refl | lia].
Qed.

Lemma performance_step data w1 :
  ∃ w2,
    match Suggest.performance data with
    | Some metrics => Suggest._analyze_performance_metrics clock format_number metrics
    | None => mret ()
    end w1 = (Ok (), w2) ∧ grows w1 w2.
Proof.
  destruct (Suggest.performance data); [apply performance_analysis_runs|].
  exists w1. split; [done | apply grows_refl].
Qed.

(** X27.  [analyze_usage_patterns] raises [KeyError] exactly when the data
    carry a non-empty [feedback] list.  In either case the data have by then
    been stored in [usage_patterns] and the suggestions of the operations
    analysis have been added behind the suggestions that were there. *)
Theorem usage_analysis_outcome data w :
  ∃ w',
    analyze_usage_patterns data w
    = (match Suggest.feedback data with
       | Some (_ :: _) => Raise (KeyError "user_feedback_threshold")
       | _ => Ok ()
       end, w')
    ∧ Suggest.usage_patterns (Suggest.engine w') = data
    ∧ Suggest.suggestions (Suggest.engine w)
      `prefix_of` Suggest.suggestions (Suggest.engine w')
    ∧ (length (Suggest.suggestions (Suggest.engine w))
       + length (filter (λ oc, 100 < oc.2)%nat
                   (Suggest.count_by "type" "unknown"
                      (default [] (Suggest.operations data))))
       ≤ length (Suggest.suggestions (Suggest.engine w')))%nat.
Proof.
  unfold Suggest.analyze_usage_patterns.
  unfold mbind at 1, Suggest.ST_bind at 1, Suggest.set_usage_patterns at 1.
  cbn beta iota.
  set (w0 := Suggest.mkWorld _ _).
  assert (H0 : Suggest.usage_patterns (Suggest.engine w0) = data
               ∧ Suggest.suggestions (Suggest.engine w0)
                 = Suggest.suggestions (Suggest.engine w)) by done.
  destruct H0 as [Hu0 Hs0]. clearbody w0.
  destruct (operations_step data w0) as (w1 & Hrun1 & Hg1 & Hlen1).
  unfold mbind at 1, Suggest.ST_bind at 1. rewrite Hrun1. cbn beta iota.
  unfold mbind at 1, Suggest.ST_bind at 1.
  destruct (performance_step data w1) as (w2 & Hrun2 & Hg2).
  destruct (grows_trans _ _ _ Hg1 Hg2) as (Hu & Hp & _).
  pose proof Hg2 as (_ & Hp2%prefix_length & _).
  destruct Hg1 as (Hu1 & Hp1 & _).
  destruct (Suggest.feedback data) as [[|item fb]|].
  - rewrite feedback_run. cbn beta iota. rewrite Hrun2. exists w2.
    split; [done|]. split_and!; [congruence | by rewrite <- Hs0 | rewrite <- Hs0; lia].
  - rewrite feedback_run. cbn beta iota. exists w1. split; [done|].
    split_and!; [congruence | by rewrite <- Hs0 | rewrite <- Hs0; lia].
  - unfold mret at 1, Suggest.ST_ret at 1. cbn beta iota. rewrite Hrun2. exists w2.
    split; [done|]. split_and!; [congruence | by rewrite <- Hs0 | rewrite <- Hs0; lia].
Qed.

Lemma collect_gaps_spec needs current acc w :
  ∃ new,
    Suggest.collect_gaps clock str_title needs current acc w
    = (Ok (acc ++ new),
       {| Suggest.engine := Suggest.engine w;
          Suggest.readings := (Suggest.readings w + length new)%nat |})
    ∧ Suggest.title <$> new
      = (λ need, "Add " +:+ str_title (str_replace "_" " " need) +:+ " capability")
          <$> filter (λ need, need ∉ current) needs
    ∧ Forall (λ s, Suggest.priority s = Suggest.MEDIUM
                   ∧ Suggest.category s = Suggest.FEATURE_ENHANCEMENT) new.
Proof.
  revert acc w. induction needs as [|need needs IH]; intros acc w.
  { exists []. simpl. rewrite app_nil_r, Nat.add_0_r. destruct w. done. }
  cbn [Suggest.collect_gaps]. rewrite filter_cons.
  destruct (decide (need ∈ current)) as [Hin|Hnin].
  - rewrite decide_False by (by intros ?). apply IH.
  - rewrite decide_True by done.
    unfold mbind at 1, Suggest.ST_bind at 1, Suggest.new_suggestion at 1.
    cbn beta iota.
    match goal with
    | |- ∃ new, Suggest.collect_gaps _ _ _ _ (acc ++ [?s]) ?w0 = _ ∧ _ =>
        destruct (IH (acc ++ [s]) w0) as (new & Hrun & Htitles & Hall);
        exists (s :: new)
    end.
    rewrite Hrun. split_and!.
    + rewrite <- app_assoc. simpl. do 3 f_equal. lia.
    + by rewrite !fmap_cons, Htitles.
    + by constructor.
Qed.

(** X28.  [detect_capability_gaps] never raises.  It returns one suggestion
    for each of the seven common needs that is not among the current
    features, in the order of the needs, all of priority [MEDIUM], and has
    appended exactly these to the engine's suggestions. *)
Theorem capability_gaps_outcome current w :
  ∃ gaps w',
    detect_capability_gaps current w = (Ok gaps, w')
    ∧ Suggest.suggestions (Suggest.engine w')
      = Suggest.suggestions (Suggest.engine w) ++ gaps
    ∧ Suggest.title <$> gaps
      = (λ need, "Add " +:+ str_title (str_replace "_" " " need) +:+ " capability")
          <$> filter (λ need, need ∉ current) Suggest.common_automation_needs
    ∧ Forall (λ s, Suggest.priority s = Suggest.MEDIUM
                   ∧ Suggest.category s = Suggest.FEATURE_ENHANCEMENT) gaps
    ∧ (gaps = [] ↔ Suggest.common_automation_needs ⊆ current).
Proof.
  unfold Suggest.detect_capability_gaps.
  destruct (collect_gaps_spec Suggest.common_automation_needs current [] w)
    as (new & Hrun & Htitles & Hall).
  unfold mbind at 1, Suggest.ST_bind at 1. rewrite Hrun. cbn beta iota.
  unfold mbind, Suggest.ST_bind, Suggest.extend_suggestions, mret, Suggest.ST_ret.
  cbn beta iota. simpl.
  eexists _, _. split; [reflexivity|]. simpl. split_and!; [done..|].
  split.
  - intros ->. simpl in Htitles. symmetry in Htitles. apply fmap_nil_inv in Htitles.
    intros need Hneed. destruct (decide (need ∈ current)) as [|Hnin]; [done|].
    destruct (filter_nil_not_elem_of _ _ _ Htitles Hnin Hneed).
  - intros Hsub.
    assert (Hf : filter (λ need, need ∉ current) Suggest.common_automation_needs = []).
    { destruct (filter _ _) as [|x l] eqn:Hf; [done|].
      assert (Hx : x ∈ filter (λ need, need ∉ current) Suggest.common_automation_needs)
        by (rewrite Hf; left).
      apply list_elem_of_filter in Hx as [Hnin Hin]. by apply Hsub in Hin. }
    rewrite Hf in Htitles. by apply fmap_nil_inv in Htitles.
Qed.
End SuggestFacts.

Lemma key_lt_true a b :
  Suggest.key_lt a b = true
  ↔ (Suggest.priority_order (Suggest.priority a)
     < Suggest.priority_order (Suggest.priority b))%nat
    ∨ (Suggest.priority_order (Suggest.priority a)
       = Suggest.priority_order (Suggest.priority b)
       ∧ (Suggest.impact_score a < Suggest.impact_score b)%Q).
Proof.
  unfold Suggest.key_lt, Qlt_bool.
  rewrite orb_true_iff, andb_true_iff, Nat.ltb_lt, Nat.eqb_eq, negb_true_iff.
  assert (Hq : Qle_bool (Suggest.impact_score b) (Suggest.impact_score a) = false
               ↔ (Suggest.impact_score a < Suggest.impact_score b)%Q).
  { destruct (Qle_bool _ _) eqn:Hle.
    - apply Qle_bool_iff in Hle. split; [done | intros; lra].
    - split; [intros _ | done]. apply Qnot_le_lt. intros H%Qle_bool_iff. congruence. }
  by rewrite Hq.
Qed.

Lemma key_lt_false a b : Suggest.key_lt a b = false ↔ not_below a b.
Proof.
  unfold not_below. split.
  - intros Hf.
    destruct (lt_eq_lt_dec (Suggest.priority_order (Suggest.priority a))
                (Suggest.priority_order (Suggest.priority b))) as [[Hlt|Heq]|Hgt].
    + assert (Suggest.key_lt a b = true) by (apply key_lt_true; by left). congruence.
    + right. split; [done|]. apply Qnot_lt_le. intros Hlt.
      assert (Suggest.key_lt a b = true) by (apply key_lt_true; by right). congruence.
    + by left.
  - intros Hnb. destruct (Suggest.key_lt a b) eqn:Hk; [|done].
    apply key_lt_true in Hk. destruct Hnb as [?|[? ?]], Hk as [?|[? ?]]; try lia; lra.
Qed.

(** X29.  [get_prioritized_suggestions] returns the engine's suggestions
    rearranged so that no suggestion comes after one that ranks below it:
    higher priorities first and, within a priority, higher impact first. *)
Theorem prioritized_suggestions_sorted self :
  Suggest.get_prioritized_suggestions self ≡ₚ Suggest.suggestions self
  ∧ StronglySorted not_below (Suggest.get_prioritized_suggestions self).
Proof.
  unfold Suggest.get_prioritized_suggestions. split; [apply sort_reverse_perm|].
  eapply StronglySorted_weaken; [intros a b; apply key_lt_false|].
  apply sort_reverse_sorted.
  - intros x y Hxy%key_lt_true. apply key_lt_false. unfold not_below.
    destruct Hxy as [?|[? ?]]; [by left|]. right. split; [done | lra].
  - intros x y z Hxy%key_lt_false Hyz%key_lt_false. apply key_lt_false.
    unfold not_below in *.
    destruct Hxy as [?|[? ?]], Hyz as [?|[? ?]];
      first [left; lia | right; split; [lia | lra]].
Qed.
